(** * Cache/sync consistency of the document chatbot (app/app.py)

    A shallow embedding of the SharePoint synchronisation code of
    [app/app.py]: manifest construction ([build_manifest]), change detection
    ([manifests_equal]), remote traversal
    ([collect_files_recursively_from_item]), content retrieval
    ([download_and_extract_text]), the rebuild-and-persist step
    ([rebuild_vectorstore_and_save]) and the orchestrator
    ([maybe_autosync_current_cache]).

    Python dictionaries with string keys are finite maps ([gmap]); the
    stateful code runs in a small state-and-exception monad over an explicit
    world (Streamlit session state, the persistence directory and a trace of
    the external calls made). *)

From Stdlib Require Import ZArith Ascii String List.
From stdpp Require Import base option list gmap strings fin_maps.

Open Scope string_scope.

Set Warnings "-register-all".

(** ** Python values *)

(** The scalar JSON values that the Graph API puts in the fields read by the
    code: [null] (also what [dict.get] gives for a missing key), integers
    and strings. *)
Inductive value :=
| VNone
| VInt (z : Z)
| VStr (s : string).

#[global] Instance value_eq_dec : EqDecision value.
Proof. solve_decision. Defined.

Definition value_encode (v : value) : unit + Z + string :=
  match v with
  | VNone => inl (inl tt)
  | VInt z => inl (inr z)
  | VStr s => inr s
  end.

Definition value_decode (x : unit + Z + string) : value :=
  match x with
  | inl (inl _) => VNone
  | inl (inr z) => VInt z
  | inr s => VStr s
  end.

#[global] Instance value_countable : Countable value.
Proof.
  apply (inj_countable' value_encode value_decode).
  by intros [].
Defined.

(** Python truthiness: [None], [0] and the empty string are falsy. *)
Definition truthy (v : value) : bool :=
  match v with
  | VNone => false
  | VInt z => negb (Z.eqb z 0)
  | VStr s => negb (String.eqb s "")
  end.

(** [d.get(k)] and [d.get(k, dflt)] on a dictionary with string keys. *)
Definition get (k : string) (d : gmap string value) : value :=
  default VNone (d !! k).

Definition get_or (k : string) (dflt : value) (d : gmap string value) : value :=
  default dflt (d !! k).

(** ** Manifests *)

(** The dictionary returned by [build_manifest]; a field is [None] when the
    key is missing, as in the empty manifest [{}] of a file cache. *)
Record manifest := Manifest {
  m_files : option (list (gmap string value));
  m_map : option (gmap value value);
  m_count : option nat
}.

#[global] Instance manifest_eq_dec : EqDecision manifest.
Proof. solve_decision. Defined.

Definition empty_manifest : manifest := Manifest None None None.

(** The reduced descriptor kept in ["files"]: five keys, no [downloadUrl]. *)
Definition reduced (f : gmap string value) : gmap string value :=
  list_to_map
    [ ("id", get "id" f);
      ("name", get "name" f);
      ("etag", get "etag" f);
      ("size", get "size" f);
      ("lastModifiedDateTime", get "lastModifiedDateTime" f) ].

(** The dict comprehension [{f.get("id"): f.get("etag") for f in files}]:
    one assignment per file, in list order. *)
Definition id_etag_map (files : list (gmap string value)) : gmap value value :=
  foldl (fun m f => <[get "id" f := get "etag" f]> m) ∅ files.

(** The (id, etag) pair the comprehension takes from a file. *)
Definition id_etag (f : gmap string value) : value * value :=
  (get "id" f, get "etag" f).

Definition build_manifest (files : list (gmap string value)) : manifest :=
  {| m_files := Some (reduced <$> files);
     m_map := Some (id_etag_map files);
     m_count := Some (length files) |}.

(** [a.get("map") == b.get("map") and a.get("count") == b.get("count")]. *)
Definition manifests_equal (a b : manifest) : bool :=
  bool_decide (m_map a = m_map b) && bool_decide (m_count a = m_count b).

(** Two maps agree as mappings: every key has the same value in both, or is
    missing from both. *)
Definition same_mapping (ma mb : gmap value value) : Prop :=
  ∀ k, ma !! k = mb !! k.

(** Two descriptors with the same id and the same etag, whatever their
    other fields. *)
Definition same_identity (f g : gmap string value) : Prop :=
  get "id" f = get "id" g ∧ get "etag" f = get "etag" g.

(** ** Exceptions and results *)

Inductive exn :=
| RuntimeError (msg : string)
| HTTPError (msg : string)
| TypeError (msg : string)
| OSError (msg : string)
| OtherError (msg : string).

Inductive result (A : Type) :=
| Ok (a : A)
| Raise (e : exn).

Arguments Ok {A} a.
Arguments Raise {A} e.

Definition is_ok {A} (r : result A) : bool :=
  match r with Ok _ => true | Raise _ => false end.

(** ** The remote source *)

(** A Graph driveItem together with the answers the server gives to the
    requests the traversal makes about it.  [i_json] holds the scalar
    properties ([id], [name], [eTag], [size], [lastModifiedDateTime],
    [@microsoft.graph.downloadUrl]); [i_is_file] and [i_is_folder] say
    whether the facets ["file"] and ["folder"] are present; [i_parent_drive]
    is [item.get("parentReference", {}).get("driveId")].  [i_drive_lookup]
    is the outcome of the request made by [drive_id_from_item] (the
    [driveId] found in the answer, if any) and [i_children] the outcome of
    the children request ([raise_for_status], then
    [res.json().get("value", [])]). *)
Inductive item :=
| Item (i_json : gmap string value)
       (i_is_file i_is_folder : bool)
       (i_parent_drive : value)
       (i_drive_lookup : result (option value))
       (i_children : result (list item)).

Definition download_url_key : string := "@microsoft.graph.downloadUrl".

(** [item.get("eTag") or item.get("@microsoft.graph.downloadUrl", "")[:32]].
    The right operand is evaluated only when the eTag is falsy; slicing
    anything but a string raises [TypeError]. *)
Definition item_etag (j : gmap string value) : result value :=
  if truthy (get "eTag" j) then Ok (get "eTag" j)
  else match get_or download_url_key (VStr "") j with
       | VStr s => Ok (VStr (substring 0 32 s))
       | _ => Raise (TypeError "object is not subscriptable")
       end.

(** The descriptor appended by [_walk] for a file item. *)
Definition descriptor_of (j : gmap string value) (etag : value) : gmap string value :=
  list_to_map
    [ ("id", get "id" j);
      ("name", get "name" j);
      ("etag", etag);
      ("size", get "size" j);
      ("lastModifiedDateTime", get "lastModifiedDateTime" j);
      ("downloadUrl", get download_url_key j) ].

(** ** Cache configuration *)

(** The per-cache [config.json]; a field is [None] when its key is missing. *)
Record config := Config {
  c_type : option value;
  c_source : option (gmap string value);
  c_sharepoint : option (gmap string value);
  c_autosync : option bool;
  c_manifest : option manifest
}.

#[global] Instance config_eq_dec : EqDecision config.
Proof. solve_decision. Defined.

Definition empty_config : config := Config None None None None None.

(** [cfg["manifest"] = m]. *)
Definition set_manifest (m : manifest) (cfg : config) : config :=
  {| c_type := c_type cfg;
     c_source := c_source cfg;
     c_sharepoint := c_sharepoint cfg;
     c_autosync := c_autosync cfg;
     c_manifest := Some m |}.

(** What a [config.json] on disk holds: the JSON text of a configuration,
    represented by the dictionary that was dumped, or a truncated text left
    by an interrupted [json.dump], which [json.load] rejects.  ([json.dump]
    writes dictionary keys as strings; the keys of a manifest map are Graph
    ids, which are strings, so loading gives back what was dumped.) *)
Inductive config_file :=
| Valid (cfg : config)
| Garbled.

#[global] Instance config_file_eq_dec : EqDecision config_file.
Proof. solve_decision. Defined.

(** How [write_cache_config] can fail: before the file is opened for
    writing ([os.makedirs] or [open] raises), or after ([json.dump] raises
    on the already truncated file). *)
Inductive fs_failure :=
| FailBeforeOpen (e : exn)
| FailDuringDump (e : exn).

(** ** Observable calls *)

Inductive event :=
| EvTokenRequest
| EvShareMeta (link : value) (token : string)
| EvDriveLookup (item_id : value)
| EvChildren (drive_id current_id : value)
| EvDownload (url : value)
| EvExtract (name : value)
| EvBuild (cache text : string)
| EvSaveIndex (cache : string)
| EvWriteConfig (cache : string) (cfg : config)
| EvToast (cache : string)
| EvWarning (e : exn).

(** Calls that only read from the remote source. *)
Definition is_remote_read (ev : event) : bool :=
  match ev with
  | EvTokenRequest | EvShareMeta _ _ | EvDriveLookup _ | EvChildren _ _ => true
  | _ => false
  end.

Definition is_download (ev : event) : bool :=
  match ev with EvDownload _ | EvExtract _ => true | _ => false end.

Definition is_build (ev : event) : bool :=
  match ev with EvBuild _ _ => true | _ => false end.

Definition is_save_index (ev : event) : bool :=
  match ev with EvSaveIndex _ => true | _ => false end.

Definition is_write_config (ev : event) : bool :=
  match ev with EvWriteConfig _ _ => true | _ => false end.

Definition is_warning (ev : event) : bool :=
  match ev with EvWarning _ => true | _ => false end.

(** The URLs requested by the downloads of a trace, in order. *)
Definition requested_urls (evs : list event) : list value :=
  omap (fun ev => match ev with EvDownload url => Some url | _ => None end) evs.

(** Rebuilds, index saves and config writes. *)
Definition is_mutation (ev : event) : bool :=
  is_build ev || is_save_index ev || is_write_config ev.

Section Sync.

(** The query engine, the vector store it is built on and the on-disk
    storage of vector stores belong to [qa_engine]; they stay abstract. *)
Context {QA VS Store : Type}.

(** ** World and environment *)

Record world := World {
  session_qa : option QA;                  (* st.session_state.qa *)
  session_cache : option string;           (* st.session_state.current_cache_name *)
  config_files : gmap string config_file;  (* persisted_data/<name>/config.json *)
  index_store : Store;                     (* persisted vector stores *)
  trace : list event
}.

(** The collaborators: environment variables, HTTP endpoints, [file_loader],
    [qa_engine] and the file system. *)
Record env := Env {
  credentials_set : bool;   (* all([TENANT_ID, CLIENT_ID, CLIENT_SECRET]) *)
  token_endpoint : result string;
  shares_endpoint : value -> string -> result item;
  requests_get : value -> result string;
  get_raw_text : string -> value -> result string;
  build_qa_engine : string -> string -> result (QA * VS);
  save_vectorstore : VS -> string -> Store -> result unit * Store;
  fs_fault : string -> config -> option fs_failure
}.

Variable E : env.

(** ** The monad: state passing with exceptions *)

Definition M (A : Type) : Type := world -> result A * world.

Definition ret {A} (a : A) : M A := fun w => (Ok a, w).

Definition bind {A B} (m : M A) (k : A -> M B) : M B :=
  fun w => match m w with
           | (Ok a, w') => k a w'
           | (Raise e, w') => (Raise e, w')
           end.

Definition raise {A} (e : exn) : M A := fun w => (Raise e, w).

(** [try: m except Exception as e: h e]; what [m] did before raising stays. *)
Definition try_except {A} (m : M A) (h : exn -> M A) : M A :=
  fun w => match m w with
           | (Ok a, w') => (Ok a, w')
           | (Raise e, w') => h e w'
           end.

Definition lift {A} (r : result A) : M A := fun w => (r, w).

Definition emit (ev : event) : M unit :=
  fun w => (Ok tt, World (session_qa w) (session_cache w) (config_files w)
                         (index_store w) (trace w ++ [ev])).

Notation "'let*' x ':=' m 'in' k" := (bind m (fun x => k))
  (at level 10, x name, m at level 100, k at level 200).
Notation "m ';;;' k" := (bind m (fun _ => k))
  (at level 100, k at level 200, right associativity).

(** ** Configuration files *)

(** [read_cache_config]: a missing or unreadable file gives [{}]. *)
Definition load_config (files : gmap string config_file) (cache_name : string) : config :=
  match files !! cache_name with
  | Some (Valid cfg) => cfg
  | _ => empty_config
  end.

Definition read_cache_config (cache_name : string) : M config :=
  fun w => (Ok (load_config (config_files w) cache_name), w).

Definition store_config (cache_name : string) (f : config_file) : M unit :=
  fun w => (Ok tt, World (session_qa w) (session_cache w)
                         (<[cache_name := f]> (config_files w))
                         (index_store w) (trace w)).

(** [write_cache_config]: [os.makedirs], [open(..., "w")], [json.dump]. *)
Definition write_cache_config (cache_name : string) (cfg : config) : M unit :=
  emit (EvWriteConfig cache_name cfg) ;;;
  match fs_fault E cache_name cfg with
  | None => store_config cache_name (Valid cfg)
  | Some (FailBeforeOpen e) => raise e
  | Some (FailDuringDump e) => store_config cache_name Garbled ;;; raise e
  end.

(** ** SharePoint helpers *)

(** [token_endpoint] stands for the POST, [raise_for_status] and the lookup
    of ["access_token"] in the answer. *)
Definition get_graph_token : M string :=
  if negb (credentials_set E)
  then raise (RuntimeError "SharePoint credentials not set in .env.")
  else emit EvTokenRequest ;;; lift (token_endpoint E).

Definition share_link_to_drive_item_meta (share_link : value) (access_token : string)
  : M item :=
  emit (EvShareMeta share_link access_token) ;;;
  lift (shares_endpoint E share_link access_token).

(** [drive_id_from_item]: [lookup] is the outcome of its request.  The
    fallback reads the same field again, now with default [""]. *)
Definition drive_id_from_item (item_id : value) (lookup : result (option value))
  : M value :=
  emit (EvDriveLookup item_id) ;;;
  let* found := lift lookup in
  let drive_id := default VNone found in
  ret (if negb (truthy drive_id) then default (VStr "") found else drive_id).

(** [_walk]: the list [results] of the enclosing function is threaded
    through.  A file item appends one descriptor; a folder item walks the
    children the server lists, in order; any other item is ignored. *)
Fixpoint walk (it : item) (results : list (gmap string value)) {struct it}
  : M (list (gmap string value)) :=
  match it with
  | Item j is_file is_folder parent_drive lookup children =>
    if is_file then
      let* etag := lift (item_etag j) in
      ret (results ++ [descriptor_of j etag])%list
    else if is_folder then
      let current_id := get "id" j in
      let* drive_id :=
        (if negb (truthy parent_drive)
         then drive_id_from_item current_id lookup
         else ret parent_drive) in
      emit (EvChildren drive_id current_id) ;;;
      let* cs := lift children in
      (fix walk_children (cs : list item) (results : list (gmap string value))
         : M (list (gmap string value)) :=
         match cs with
         | [] => ret results
         | child :: cs' =>
           let* results' := walk child results in
           walk_children cs' results'
         end) cs results
    else ret results
  end.

(** The token only travels in the request headers; the answers are those
    recorded in the item. *)
Definition collect_files_recursively_from_item (item_json : item) (access_token : string)
  : M (list (gmap string value)) :=
  walk item_json [].

(** ** Content retrieval *)

Definition blank_line : string := String "010"%char (String "010"%char "").

(** The loop of [download_and_extract_text], with [all_text] threaded. *)
Fixpoint download_loop (files : list (gmap string value)) (all_text : string)
  : M string :=
  match files with
  | [] => ret all_text
  | f :: rest =>
    let url := get "downloadUrl" f in
    if negb (truthy url) then download_loop rest all_text
    else
      emit (EvDownload url) ;;;
      let* content := lift (requests_get E url) in
      emit (EvExtract (get_or "name" (VStr "file") f)) ;;;
      let* text := lift (get_raw_text E content (get_or "name" (VStr "file") f)) in
      download_loop rest (all_text ++ (text ++ blank_line))
  end.

Definition download_and_extract_text (files : list (gmap string value)) : M string :=
  download_loop files "".

(** ** Rebuild and persist *)

(** [save_vectorstore(vectorstore, PERSIST_DIR, cache_name=cache_name)]:
    whatever it returns, the index store is as the call left it. *)
Definition call_save_vectorstore (vs : VS) (cache_name : string) : M unit :=
  fun w =>
    let '(r, store') := save_vectorstore E vs cache_name (index_store w) in
    (r, World (session_qa w) (session_cache w) (config_files w) store'
              (trace w ++ [EvSaveIndex cache_name])).

(** The two assignments to [st.session_state]. *)
Definition set_session (qa : option QA) (cache_name : option string) : M unit :=
  fun w => (Ok tt, World qa cache_name (config_files w) (index_store w) (trace w)).

Definition rebuild_vectorstore_and_save (cache_name raw_text : string) : M unit :=
  emit (EvBuild cache_name raw_text) ;;;
  let* built := lift (build_qa_engine E raw_text cache_name) in
  let '(qa, vectorstore) := built in
  call_save_vectorstore vectorstore cache_name ;;;
  set_session (Some qa) (Some cache_name).

(** ** Auto-sync *)

Definition current_cache_name : M (option string) :=
  fun w => (Ok (session_cache w), w).

(** [cfg.get("sharepoint", {}).get("link")]. *)
Definition share_link_of (cfg : config) : value :=
  get "link" (default ∅ (c_sharepoint cfg)).

(** Four early returns (no active cache, [type] other than ["sharepoint"],
    [autosync] falsy, sharing link falsy), then the [try] block; its handler
    shows a warning.  The spinner around the rebuild is not modelled. *)
Definition maybe_autosync_current_cache : M unit :=
  let* cache_opt := current_cache_name in
  match cache_opt with
  | None => ret tt
  | Some cache =>
    if String.eqb cache "" then ret tt else
    let* cfg := read_cache_config cache in
    if negb (bool_decide (default VNone (c_type cfg) = VStr "sharepoint")) then ret tt else
    if negb (default false (c_autosync cfg)) then ret tt else
    let share_link := share_link_of cfg in
    if negb (truthy share_link) then ret tt else
    try_except
      (let* token := get_graph_token in
       let* item_json := share_link_to_drive_item_meta share_link token in
       let* files := collect_files_recursively_from_item item_json token in
       let new_manifest := build_manifest files in
       let old_manifest := default empty_manifest (c_manifest cfg) in
       if negb (manifests_equal new_manifest old_manifest) then
         let* text := download_and_extract_text files in
         rebuild_vectorstore_and_save cache text ;;;
         let cfg' := set_manifest new_manifest cfg in
         write_cache_config cache cfg' ;;;
         emit (EvToast cache)
       else ret tt)
      (fun e => emit (EvWarning e))
  end.

(** ** Phases of a sync attempt

    Names for the parts of the [try] block of [maybe_autosync_current_cache],
    used to state its properties. *)

(** The world after more calls have been recorded. *)
Definition add_trace (evs : list event) (w : world) : world :=
  World (session_qa w) (session_cache w) (config_files w) (index_store w)
        (trace w ++ evs).

(** [m] changes nothing but the trace, to which it adds calls satisfying [P]. *)
Definition logs_only (P : event → bool) {A} (m : M A) : Prop :=
  ∀ w, ∃ evs, (m w).2 = add_trace evs w ∧ Forall (fun ev => P ev = true) evs.

(** The conjunction of the guards on the configuration. *)
Definition autosync_enabled (cfg : config) : bool :=
  bool_decide (default VNone (c_type cfg) = VStr "sharepoint")
  && default false (c_autosync cfg)
  && truthy (share_link_of cfg).

(** The first three statements: token, root item, traversal. *)
Definition remote_listing (share_link : value) : M (list (gmap string value)) :=
  let* token := get_graph_token in
  let* item_json := share_link_to_drive_item_meta share_link token in
  collect_files_recursively_from_item item_json token.

(** The statements under [if not manifests_equal(...)]. *)
Definition resync (cache : string) (cfg : config) (files : list (gmap string value))
  : M unit :=
  let* text := download_and_extract_text files in
  rebuild_vectorstore_and_save cache text ;;;
  write_cache_config cache (set_manifest (build_manifest files) cfg) ;;;
  emit (EvToast cache).

(** The manifest comparison of the attempt. *)
Definition listing_unchanged (cfg : config) (files : list (gmap string value)) : bool :=
  manifests_equal (build_manifest files) (default empty_manifest (c_manifest cfg)).

(** What one file contributes to the text: download, then extraction. *)
Definition fetch_text (f : gmap string value) : result string :=
  match requests_get E (get "downloadUrl" f) with
  | Ok content => get_raw_text E content (get_or "name" (VStr "file") f)
  | Raise e => Raise e
  end.

Definition has_download_url (f : gmap string value) : bool :=
  truthy (get "downloadUrl" f).

(** Texts in order, each followed by a blank line. *)
Definition join_with_blank_lines (texts : list string) : string :=
  foldr (fun text rest => text ++ (blank_line ++ rest)) "" texts.

(** The exception of a failed config write, and the config files it
    leaves. *)
Definition fault_exn (fault : fs_failure) : exn :=
  match fault with FailBeforeOpen e | FailDuringDump e => e end.

Definition files_after_fault (fault : fs_failure) (cache : string)
    (files : gmap string config_file) : gmap string config_file :=
  match fault with
  | FailBeforeOpen _ => files
  | FailDuringDump _ => <[cache := Garbled]> files
  end.

(** How far [resync] gets from a world [w1]: each step either raises, which
    ends the attempt, or lets the next one run. *)
Inductive resync_outcome (cache : string) (cfg : config)
    (files : list (gmap string value)) (w1 : world) : result unit -> world -> Prop :=
| Download_failed e w2 :
    download_and_extract_text files w1 = (Raise e, w2) ->
    resync_outcome cache cfg files w1 (Raise e) w2
| Build_failed text w2 e :
    download_and_extract_text files w1 = (Ok text, w2) ->
    build_qa_engine E text cache = Raise e ->
    resync_outcome cache cfg files w1 (Raise e)
      (add_trace [EvBuild cache text] w2)
| Save_failed text w2 qa vs e store' :
    download_and_extract_text files w1 = (Ok text, w2) ->
    build_qa_engine E text cache = Ok (qa, vs) ->
    save_vectorstore E vs cache (index_store w2) = (Raise e, store') ->
    resync_outcome cache cfg files w1 (Raise e)
      (World (session_qa w2) (session_cache w2) (config_files w2) store'
             (trace w2 ++ [EvBuild cache text; EvSaveIndex cache]))
| Write_failed text w2 qa vs store' fault :
    download_and_extract_text files w1 = (Ok text, w2) ->
    build_qa_engine E text cache = Ok (qa, vs) ->
    save_vectorstore E vs cache (index_store w2) = (Ok tt, store') ->
    fs_fault E cache (set_manifest (build_manifest files) cfg) = Some fault ->
    resync_outcome cache cfg files w1 (Raise (fault_exn fault))
      (World (Some qa) (Some cache)
             (files_after_fault fault cache (config_files w2)) store'
             (trace w2 ++ [EvBuild cache text; EvSaveIndex cache;
                           EvWriteConfig cache (set_manifest (build_manifest files) cfg)]))
| Synced text w2 qa vs store' :
    download_and_extract_text files w1 = (Ok text, w2) ->
    build_qa_engine E text cache = Ok (qa, vs) ->
    save_vectorstore E vs cache (index_store w2) = (Ok tt, store') ->
    fs_fault E cache (set_manifest (build_manifest files) cfg) = None ->
    resync_outcome cache cfg files w1 (Ok tt)
      (World (Some qa) (Some cache)
             (<[cache := Valid (set_manifest (build_manifest files) cfg)]> (config_files w2))
             store'
             (trace w2 ++ [EvBuild cache text; EvSaveIndex cache;
                           EvWriteConfig cache (set_manifest (build_manifest files) cfg);
                           EvToast cache])).

(** The guards of [maybe_autosync_current_cache] all pass for [cache]. *)
Definition sync_active (w : world) (cache : string) : Prop :=
  session_cache w = Some cache /\ cache <> "" /\
  autosync_enabled (load_config (config_files w) cache) = true.

(** The worlds a call of [maybe_autosync_current_cache] can end in. *)
Inductive autosync_outcome (w : world) : world -> Prop :=
| Not_attempted :
    (forall cache, ~ sync_active w cache) ->
    autosync_outcome w w
| Listing_failed cache e w1 :
    sync_active w cache ->
    remote_listing (share_link_of (load_config (config_files w) cache)) w = (Raise e, w1) ->
    autosync_outcome w (add_trace [EvWarning e] w1)
| Listing_same cache files w1 :
    sync_active w cache ->
    remote_listing (share_link_of (load_config (config_files w) cache)) w = (Ok files, w1) ->
    listing_unchanged (load_config (config_files w) cache) files = true ->
    autosync_outcome w w1
| Resync_failed cache files w1 e w2 :
    sync_active w cache ->
    remote_listing (share_link_of (load_config (config_files w) cache)) w = (Ok files, w1) ->
    listing_unchanged (load_config (config_files w) cache) files = false ->
    resync_outcome cache (load_config (config_files w) cache) files w1 (Raise e) w2 ->
    autosync_outcome w (add_trace [EvWarning e] w2)
| Resync_done cache files w1 w2 :
    sync_active w cache ->
    remote_listing (share_link_of (load_config (config_files w) cache)) w = (Ok files, w1) ->
    listing_unchanged (load_config (config_files w) cache) files = false ->
    resync_outcome cache (load_config (config_files w) cache) files w1 (Ok tt) w2 ->
    autosync_outcome w w2.

(** [st.session_state.qa({"query": q})], for any way [run] of running the
    engine; [None] when no knowledge base is loaded. *)
Definition answer {A} (run : QA -> string -> A) (w : world) (q : string) : option A :=
  (fun qa => run qa q) <$> session_qa w.

End Sync.

Arguments world : clear implicits.
Arguments env : clear implicits.
Arguments M : clear implicits.

Notation "'let*' x ':=' m 'in' k" := (bind m (fun x => k))
  (at level 10, x name, m at level 100, k at level 200).
Notation "m ';;;' k" := (bind m (fun _ => k))
  (at level 100, k at level 200, right associativity).

(** ** A concrete cache: "policies"

    Two remote files [A] and [B] in one shared folder.  The cache was built
    when both had etag [v1]; the remote folder now has [A] at [v2].  The
    engine and the vector store are represented by the text they were built
    from, the index store by a map from cache names to vector stores. *)

Definition remote_file (id etag : string) : item :=
  Item (list_to_map [("id", VStr id); ("name", VStr (id ++ ".pdf"));
                     ("eTag", VStr etag);
                     (download_url_key, VStr ("https://dl/" ++ id))])
       true false (VStr "drive") (Ok None) (Ok []).

Definition remote_folder (children : list item) : item :=
  Item (list_to_map [("id", VStr "root"); ("name", VStr "policies")])
       false true (VStr "drive") (Ok None) (Ok children).

Definition listed_file (id etag : string) : gmap string value :=
  list_to_map [("id", VStr id); ("name", VStr (id ++ ".pdf")); ("etag", VStr etag);
               ("size", VNone); ("lastModifiedDateTime", VNone);
               ("downloadUrl", VStr ("https://dl/" ++ id))].

Definition policies_link : value := VStr "https://contoso.sharepoint.com/:f:/s/policies".

Definition policies_config : config :=
  {| c_type := Some (VStr "sharepoint");
     c_source := None;
     c_sharepoint := Some (list_to_map [("link", policies_link)]);
     c_autosync := Some true;
     c_manifest := Some (build_manifest [listed_file "A" "v1"; listed_file "B" "v1"]) |}.

(** The collaborators: [token] is the answer of the token endpoint, [now]
    the current remote folder and [fault] what the file system does to a
    config write; every other request succeeds, a download returns the URL
    as content and extraction returns the content. *)
Definition policies_env (token : result string) (now : item)
    (fault : option fs_failure) : env string string (gmap string string) :=
  {| credentials_set := true;
     token_endpoint := token;
     shares_endpoint := fun _ _ => Ok now;
     requests_get := fun url => match url with
                                | VStr u => Ok u
                                | _ => Raise (HTTPError "bad url")
                                end;
     get_raw_text := fun content _ => Ok content;
     build_qa_engine := fun text _ => Ok (text, text);
     save_vectorstore := fun vs name store => (Ok tt, <[name := vs]> store);
     fs_fault := fun _ _ => fault |}.

Definition policies_world : world string (gmap string string) :=
  {| session_qa := Some "old text";
     session_cache := Some "policies";
     config_files := {[ "policies" := Valid policies_config ]};
     index_store := {[ "policies" := "old text" ]};
     trace := [] |}.

(** A cache built from an uploaded file, as [page_settings] writes it. *)
Definition upload_config : config :=
  {| c_type := Some (VStr "file");
     c_source := Some (list_to_map [("filename", VStr "handbook.pdf")]);
     c_sharepoint := None;
     c_autosync := Some false;
     c_manifest := Some empty_manifest |}.

Definition upload_world : world string (gmap string string) :=
  {| session_qa := Some "handbook text";
     session_cache := Some "handbook";
     config_files := {[ "handbook" := Valid upload_config ]};
     index_store := {[ "handbook" := "handbook text" ]};
     trace := [] |}.

Definition folder_v1 : item := remote_folder [remote_file "A" "v1"; remote_file "B" "v1"].
Definition folder_v2 : item := remote_folder [remote_file "A" "v2"; remote_file "B" "v1"].

Definition listing_v1 : list (gmap string value) :=
  [listed_file "A" "v1"; listed_file "B" "v1"].
Definition listing_v2 : list (gmap string value) :=
  [listed_file "A" "v2"; listed_file "B" "v1"].

Definition env_unchanged := policies_env (Ok "token") folder_v1 None.
Definition env_changed := policies_env (Ok "token") folder_v2 None.
Definition env_offline := policies_env (Raise (HTTPError "503")) folder_v2 None.
Definition env_write_refused :=
  policies_env (Ok "token") folder_v2 (Some (FailBeforeOpen (OSError "Permission denied"))).

(** The text built from the two files of the folder. *)
Definition policies_text : string :=
  join_with_blank_lines ["https://dl/A"; "https://dl/B"].

(** A listing in which the id [A] occurs twice. *)
Definition listing_dup : list (gmap string value) :=
  [listed_file "A" "v1"; listed_file "B" "v1"; listed_file "A" "v2"].

(** The listing [listing_v1] after both files were renamed and resized. *)
Definition renamed_file (id etag : string) : gmap string value :=
  list_to_map [("id", VStr id); ("name", VStr ("new-" ++ id)); ("etag", VStr etag);
               ("size", VInt 7); ("downloadUrl", VStr ("https://dl/" ++ id))].

Definition listing_renamed : list (gmap string value) :=
  [renamed_file "A" "v1"; renamed_file "B" "v1"].

(** The same files as in [folder_v1], renamed and resized on the remote
    side, and what the traversal lists for them. *)
Definition renamed_json (id etag : string) : gmap string value :=
  list_to_map [("id", VStr id); ("name", VStr ("new-" ++ id)); ("eTag", VStr etag);
               ("size", VInt 7); (download_url_key, VStr ("https://dl/" ++ id))].

Definition folder_renamed : item :=
  remote_folder
    [Item (renamed_json "A" "v1") true false (VStr "drive") (Ok None) (Ok []);
     Item (renamed_json "B" "v1") true false (VStr "drive") (Ok None) (Ok [])].

Definition listing_of_renamed : list (gmap string value) :=
  [descriptor_of (renamed_json "A" "v1") (VStr "v1");
   descriptor_of (renamed_json "B" "v1") (VStr "v1")].

Definition env_renamed := policies_env (Ok "token") folder_renamed None.

(** File items without an eTag: one with a download URL of 40 characters,
    one with no download URL either. *)
Definition long_url : string := "https://dl/C?tempauth=0123456789abcdefgh".

Definition json_no_etag : gmap string value :=
  list_to_map [("id", VStr "C"); (download_url_key, VStr long_url)].

Definition json_bare : gmap string value :=
  list_to_map [("id", VStr "D")].

(** As [env_changed], but the download of [B] is refused. *)
Definition env_download_fails : env string string (gmap string string) :=
  {| credentials_set := true;
     token_endpoint := Ok "token";
     shares_endpoint := fun _ _ => Ok folder_v2;
     requests_get := fun url => if bool_decide (url = VStr "https://dl/B")
                                then Raise (HTTPError "404")
                                else requests_get env_changed url;
     get_raw_text := get_raw_text env_changed;
     build_qa_engine := build_qa_engine env_changed;
     save_vectorstore := save_vectorstore env_changed;
     fs_fault := fs_fault env_changed |}.

(** The listing [listing_v2] with an entry that has no download URL. *)
Definition link_only_entry : gmap string value :=
  list_to_map [("id", VStr "L"); ("name", VStr "shortcut"); ("etag", VStr "v1");
               ("downloadUrl", VNone)].

Definition listing_with_link : list (gmap string value) :=
  [listed_file "A" "v2"; link_only_entry; listed_file "B" "v1"].

(** ** Reading a remote tree

    What a traversal of a remote tree has to find, for stating what
    [collect_files_recursively_from_item] returns. *)

(** The file items the traversal reaches, in the order it reaches them: an
    item with a [file] facet is a leaf, the children a folder lists are
    visited in order, anything else is passed over. *)
Fixpoint leaf_items (it : item) : list (gmap string value) :=
  match it with
  | Item j is_file is_folder _ _ children =>
    if is_file then [j]
    else if is_folder then
      match children with
      | Ok cs => flat_map leaf_items cs
      | Raise _ => []
      end
    else []
  end.

(** No request of the traversal fails: every folder reached has a known
    drive or an answered drive lookup, its children request is answered,
    and every file reached has an etag that can be computed. *)
Fixpoint traversable (it : item) : bool :=
  match it with
  | Item j is_file is_folder parent_drive lookup children =>
    if is_file then is_ok (item_etag j)
    else if is_folder then
      (truthy parent_drive || is_ok lookup) &&
      match children with
      | Ok cs => forallb traversable cs
      | Raise _ => false
      end
    else true
  end.

(** The folders reached, and those among them that carry no drive id. *)
Fixpoint folders (it : item) : nat :=
  match it with
  | Item _ is_file is_folder _ _ children =>
    if is_file then 0
    else if is_folder then
      S (match children with
         | Ok cs => list_sum (List.map folders cs)
         | Raise _ => 0
         end)
    else 0
  end.

Fixpoint folders_without_drive (it : item) : nat :=
  match it with
  | Item _ is_file is_folder parent_drive _ children =>
    if is_file then 0
    else if is_folder then
      (if truthy parent_drive then 0 else 1) +
      match children with
      | Ok cs => list_sum (List.map folders_without_drive cs)
      | Raise _ => 0
      end
    else 0
  end.

(** [d] is the descriptor the traversal makes of the file item [j]. *)
Definition leaf_descriptor (j d : gmap string value) : Prop :=
  ∃ etag, item_etag j = Ok etag ∧ d = descriptor_of j etag.

Definition is_children_request (ev : event) : bool :=
  match ev with EvChildren _ _ => true | _ => false end.

Definition is_drive_lookup (ev : event) : bool :=
  match ev with EvDriveLookup _ => true | _ => false end.

Section SyncMoreDefs.

Context {QA VS Store : Type}.

(** [m] neither reads nor changes the world: its result and the calls it
    records are the same from every world. *)
Definition world_blind {A} (m : M QA Store A) : Prop :=
  ∃ r evs, ∀ w, m w = (r, add_trace evs w).

(** The loop of [_walk] over the children of a folder, by name. *)
Definition walk_children : list item -> list (gmap string value)
                           -> M QA Store (list (gmap string value)) :=
  fix walk_children (cs : list item) (results : list (gmap string value))
    : M QA Store (list (gmap string value)) :=
    match cs with
    | [] => ret results
    | child :: cs' =>
      let* results' := walk child results in
      walk_children cs' results'
    end.

(** A walk of [it] that returns: the descriptors of the leaves are appended
    to the results, one children request is recorded per folder and one
    drive lookup per folder without a drive id; the world is not looked at. *)
Definition walk_succeeds (it : item) : Prop :=
  ∃ ds evs,
    (∀ (results : list (gmap string value)) (w : world QA Store),
        walk it results w = (Ok (results ++ ds)%list, add_trace evs w)) ∧
    Forall2 leaf_descriptor (leaf_items it) ds ∧
    length (List.filter is_children_request evs) = folders it ∧
    length (List.filter is_drive_lookup evs) = folders_without_drive it ∧
    Forall (fun ev => is_children_request ev || is_drive_lookup ev = true) evs.

(** A walk of [it] that raises. *)
Definition walk_raises (it : item) : Prop :=
  ∃ e evs,
    ∀ (results : list (gmap string value)) (w : world QA Store),
      walk it results w = (Raise e, add_trace evs w).

End SyncMoreDefs.

(** ** Loading a cache and the settings handlers *)

(** The answer of the engine to a query: the dictionary it returns, of
    which the page reads ["result"] and ["source_documents"] (documents are
    represented by their text). *)
Record qa_answer := QaAnswer {
  a_result : option string;
  a_source_documents : option (list string)
}.

(** An entry of [st.session_state.chat_history]. *)
Record chat_entry := ChatEntry {
  ce_question : string;
  ce_answer : string;
  ce_context : list string
}.

(** The configuration written for an uploaded file. *)
Definition file_config (filename : string) : config :=
  {| c_type := Some (VStr "file");
     c_source := Some (list_to_map [("filename", VStr filename)]);
     c_sharepoint := None;
     c_autosync := Some false;
     c_manifest := Some empty_manifest |}.

(** The configuration written for a SharePoint source. *)
Definition sharepoint_config (sp_link : string) (autosync : bool) (m : manifest) : config :=
  {| c_type := Some (VStr "sharepoint");
     c_source := None;
     c_sharepoint := Some (list_to_map [("link", VStr sp_link)]);
     c_autosync := Some autosync;
     c_manifest := Some m |}.

(** [cfg["autosync"] = b]. *)
Definition set_autosync (b : bool) (cfg : config) : config :=
  {| c_type := c_type cfg;
     c_source := c_source cfg;
     c_sharepoint := c_sharepoint cfg;
     c_autosync := Some b;
     c_manifest := c_manifest cfg |}.

Definition placeholder : string := "-- select --".

Section Pages.

Context {QA VS Store : Type}.

(** The collaborators of the pages that the sync code does not use:
    [load_vectorstore], [build_qa_engine] called on a loaded vector store
    (its first result), the call of the engine on a query, the test
    [not raw_text.strip()] and the environment variable [ADMIN_PASSWORD]. *)
Record page_env := PageEnv {
  load_vectorstore : string -> Store -> result (option VS);
  build_qa_engine_from : VS -> result QA;
  run_qa : QA -> string -> result qa_answer;
  text_is_blank : string -> bool;
  admin_password : string
}.

Variable E : env QA VS Store.
Variable U : page_env.

Definition read_index_store : M QA Store Store :=
  fun w => (Ok (index_store w), w).

(** [load_cache_into_memory]: [True] when a vector store was found and the
    engine built on it; any exception is caught and gives [False].  Calls
    that only display ([st.error], [st.success], [st.info], ...) are left
    out here and in the handlers below. *)
Definition load_cache_into_memory (name : string) : M QA Store bool :=
  try_except
    (let* store := read_index_store in
     let* vectorstore := lift (load_vectorstore U name store) in
     match vectorstore with
     | Some vs =>
       let* qa := lift (build_qa_engine_from U vs) in
       set_session (Some qa) (Some name) ;;;
       ret true
     | None => ret false
     end)
    (fun _ => ret false).

(** The handler of "Process & Save to Memory (File)": [uploaded_file] is the
    content and the name of the upload, if any. *)
Definition process_upload (uploaded_file : option (string * string)) (cache_name : string)
  : M QA Store unit :=
  match uploaded_file with
  | None => ret tt
  | Some (raw_bytes, filename) =>
    if String.eqb cache_name "" then ret tt
    else
      try_except
        (emit (EvExtract (VStr filename)) ;;;
         let* raw_text := lift (get_raw_text E raw_bytes (VStr filename)) in
         if text_is_blank U raw_text then ret tt
         else
           rebuild_vectorstore_and_save E cache_name raw_text ;;;
           write_cache_config E cache_name (file_config filename))
        (fun _ => ret tt)
  end.

(** The handler of "Load and Save (SharePoint)". *)
Definition load_sharepoint (sp_link cache_name_sp : string) (autosync : bool)
  : M QA Store unit :=
  if String.eqb sp_link "" || String.eqb cache_name_sp "" then ret tt
  else if negb (credentials_set E) then ret tt
  else
    try_except
      (let* token := get_graph_token E in
       let* item_json := share_link_to_drive_item_meta E (VStr sp_link) token in
       let* files := collect_files_recursively_from_item item_json token in
       let* text := download_and_extract_text E files in
       rebuild_vectorstore_and_save E cache_name_sp text ;;;
       let manifest := build_manifest files in
       write_cache_config E cache_name_sp (sharepoint_config sp_link autosync manifest))
      (fun _ => ret tt).

(** The block that manages autosync for the cache chosen in the select box:
    [new_val] is the value of the toggle and [save_clicked] says whether
    "Save auto-sync setting" was pressed.  The write is not in a [try]. *)
Definition save_autosync_setting (autosync_cache : string) (new_val save_clicked : bool)
  : M QA Store unit :=
  if String.eqb autosync_cache "" || String.eqb autosync_cache placeholder then ret tt
  else
    let* cfg := read_cache_config autosync_cache in
    if bool_decide (default VNone (c_type cfg) = VStr "sharepoint") then
      if save_clicked
      then write_cache_config E autosync_cache (set_autosync new_val cfg)
      else ret tt
    else ret tt.

(** ** Pages *)

(** The state of a script run: the world and the keys [chat_history],
    [page] and [authorized_settings] of [st.session_state]. *)
Record page_state := PageState {
  ps_world : world QA Store;
  ps_chat_history : list chat_entry;
  ps_page : string;
  ps_authorized_settings : bool
}.

(** Why a script run stops before the end of the page: a [return], a call
    of [st.rerun()], or an exception nobody caught. *)
Inductive stop :=
| Returned
| Rerun
| Crashed (e : exn).

Inductive flow (A : Type) :=
| Go (a : A)
| Stop (why : stop).

Arguments Go {A} a.
Arguments Stop {A} why.

Definition P (A : Type) : Type := page_state -> flow A * page_state.

Definition retP {A} (a : A) : P A := fun s => (Go a, s).

Definition bindP {A B} (m : P A) (k : A -> P B) : P B :=
  fun s => match m s with
           | (Go a, s') => k a s'
           | (Stop why, s') => (Stop why, s')
           end.

Definition stopP {A} (why : stop) : P A := fun s => (Stop why, s).

(** A computation on the world, run from a page: an exception it lets
    through stops the script. *)
Definition in_world {A} (m : M QA Store A) : P A :=
  fun s => match m (ps_world s) with
           | (Ok a, w') =>
             (Go a, PageState w' (ps_chat_history s) (ps_page s) (ps_authorized_settings s))
           | (Raise e, w') =>
             (Stop (Crashed e),
              PageState w' (ps_chat_history s) (ps_page s) (ps_authorized_settings s))
           end.

Definition get_state : P page_state := fun s => (Go s, s).

Definition set_chat_history (h : list chat_entry) : P unit :=
  fun s => (Go tt, PageState (ps_world s) h (ps_page s) (ps_authorized_settings s)).

Definition set_page (page : string) : P unit :=
  fun s => (Go tt, PageState (ps_world s) (ps_chat_history s) page (ps_authorized_settings s)).

Definition set_authorized_settings (b : bool) : P unit :=
  fun s => (Go tt, PageState (ps_world s) (ps_chat_history s) (ps_page s) b).

Notation "'let+' x ':=' m 'in' k" := (bindP m (fun x => k))
  (at level 10, x name, m at level 100, k at level 200).
Notation "m ';;+' k" := (bindP m (fun _ => k))
  (at level 100, k at level 200, right associativity).

Definition when (b : bool) (m : P unit) : P unit := if b then m else retP tt.

(** [render_header]: [selected] is the value of the cache select box and
    [settings_clicked] that of the settings button. *)
Definition render_header (selected : string) (settings_clicked : bool) : P unit :=
  let+ s := get_state in
  when (negb (String.eqb selected "") && negb (String.eqb selected placeholder))
    (when (negb (bool_decide (Some selected = session_cache (ps_world s))))
       (let+ loaded := in_world (load_cache_into_memory selected) in
        when loaded (set_chat_history [] ;;+ stopP Rerun))) ;;+
  when settings_clicked (set_page "settings" ;;+ stopP Rerun).

(** The entry appended for a query and its answer. *)
Definition entry_of (q : string) (ans : qa_answer) : chat_entry :=
  {| ce_question := q;
     ce_answer := default "" (a_result ans);
     ce_context := default [] (a_source_documents ans) |}.

(** [page_chat]: [user_query] is the value of the chat input.  The badge
    only displays what [read_cache_config] returns. *)
Definition page_chat (selected : string) (settings_clicked : bool)
    (user_query : option string) : P unit :=
  render_header selected settings_clicked ;;+
  in_world (maybe_autosync_current_cache E) ;;+
  let+ s := get_state in
  match session_qa (ps_world s) with
  | None => stopP Returned
  | Some qa =>
    match user_query with
    | None => retP tt
    | Some q =>
      if String.eqb q "" then retP tt
      else match run_qa U qa q with
           | Ok ans => set_chat_history (ps_chat_history s ++ [entry_of q ans])%list
           | Raise _ => retP tt
           end
    end
  end.

(** The values of the widgets of the settings page in one script run. *)
Record settings_inputs := SettingsInputs {
  in_selected : string;
  in_settings_clicked : bool;
  in_pwd : string;
  in_unlock : bool;
  in_uploaded_file : option (string * string);
  in_cache_name : string;
  in_process : bool;
  in_sp_link : string;
  in_cache_name_sp : string;
  in_autosync : bool;
  in_load_sp : bool;
  in_caches : list string;              (* what list_caches() returns *)
  in_selected_cache : string;
  in_load_selected : bool;
  in_clear : bool;
  in_autosync_cache : string;
  in_new_val : bool;
  in_save_autosync : bool;
  in_back : bool
}.

(** "Clear in-memory selection". *)
Definition clear_selection : P unit :=
  in_world (set_session None None) ;;+ set_chat_history [].

(** [page_settings]. *)
Definition page_settings (i : settings_inputs) : P unit :=
  render_header (in_selected i) (in_settings_clicked i) ;;+
  let+ s := get_state in
  if negb (ps_authorized_settings s) then
    when (in_unlock i)
      (when (String.eqb (in_pwd i) (admin_password U))
         (set_authorized_settings true ;;+ stopP Rerun)) ;;+
    stopP Returned
  else
    when (in_process i)
      (in_world (process_upload (in_uploaded_file i) (in_cache_name i))) ;;+
    when (in_load_sp i)
      (in_world (load_sharepoint (in_sp_link i) (in_cache_name_sp i) (in_autosync i))) ;;+
    when (in_load_selected i)
      (when (negb (String.eqb (in_selected_cache i) "") &&
             negb (String.eqb (in_selected_cache i) placeholder))
         (let+ _ := in_world (load_cache_into_memory (in_selected_cache i)) in retP tt)) ;;+
    when (in_clear i) clear_selection ;;+
    when (negb (bool_decide (in_caches i = [])))
      (in_world (save_autosync_setting (in_autosync_cache i) (in_new_val i)
                   (in_save_autosync i))) ;;+
    when (in_back i) (set_page "chat" ;;+ stopP Rerun).

(** [m] leaves the chat history as it is. *)
Definition keeps_history {A} (m : P A) : Prop :=
  ∀ s, ps_chat_history (m s).2 = ps_chat_history s.

(** The router at the end of the script. *)
Definition route (chat : P unit) (settings : P unit) : P unit :=
  let+ s := get_state in
  if String.eqb (ps_page s) "chat" then chat else settings.

End Pages.

Arguments page_env : clear implicits.
Arguments page_state : clear implicits.
Arguments P : clear implicits.
Arguments Go {A} a.
Arguments Stop {A} why.

(** ** More scenarios

    A folder with a sub-folder that carries no drive id (its drive lookup
    answers [drive2]), an empty folder, a SharePoint cache whose config has
    no manifest yet, missing credentials, a disk that fails during the dump,
    and the collaborators and widget values of a page run. *)

Definition folder_nested : item :=
  remote_folder
    [remote_file "A" "v2";
     Item (list_to_map [("id", VStr "sub"); ("name", VStr "archive")])
          false true VNone (Ok (Some (VStr "drive2")))
          (Ok [remote_file "C" "v1"])].



Definition env_dump_fails :=
  policies_env (Ok "token") folder_v2
    (Some (FailDuringDump (OSError "No space left on device"))).

Definition env_no_credentials : env string string (gmap string string) :=
  {| credentials_set := false;
     token_endpoint := token_endpoint env_changed;
     shares_endpoint := shares_endpoint env_changed;
     requests_get := requests_get env_changed;
     get_raw_text := get_raw_text env_changed;
     build_qa_engine := build_qa_engine env_changed;
     save_vectorstore := save_vectorstore env_changed;
     fs_fault := fs_fault env_changed |}.



(** Both caches on disk, "policies" active. *)
Definition two_caches_world : world string (gmap string string) :=
  {| session_qa := Some "old text";
     session_cache := Some "policies";
     config_files := <["handbook" := Valid upload_config]>
                       {[ "policies" := Valid policies_config ]};
     index_store := <["handbook" := "handbook text"]> {[ "policies" := "old text" ]};
     trace := [] |}.

(** A stored index loads as it was saved, the engine answers with the text
    it was built from, only the empty text is blank. *)
Definition demo_page_env : page_env string string (gmap string string) :=
  {| load_vectorstore := fun name store => Ok (store !! name);
     build_qa_engine_from := fun vs => Ok vs;
     run_qa := fun qa _ => Ok (QaAnswer (Some qa) None);
     text_is_blank := fun text => String.eqb text "";
     admin_password := "admin" |}.

Definition asked : chat_entry :=
  {| ce_question := "Who approves leave?"; ce_answer := "old text"; ce_context := [] |}.

Definition chat_state : page_state string (gmap string string) :=
  PageState two_caches_world [asked] "chat" false.

Definition settings_state : page_state string (gmap string string) :=
  PageState two_caches_world [asked] "settings" true.

(** No button pressed, nothing typed or selected. *)
Definition idle_inputs : settings_inputs :=
  {| in_selected := placeholder; in_settings_clicked := false;
     in_pwd := ""; in_unlock := false;
     in_uploaded_file := None; in_cache_name := ""; in_process := false;
     in_sp_link := ""; in_cache_name_sp := ""; in_autosync := true; in_load_sp := false;
     in_caches := ["handbook"; "policies"];
     in_selected_cache := placeholder; in_load_selected := false; in_clear := false;
     in_autosync_cache := placeholder; in_new_val := false; in_save_autosync := false;
     in_back := false |}.

(** Every handler button pressed with its inputs filled in, and "Unlock"
    pressed with a wrong password. *)
Definition intruder_inputs : settings_inputs :=
  {| in_selected := placeholder; in_settings_clicked := false;
     in_pwd := "guess"; in_unlock := true;
     in_uploaded_file := Some ("handbook text", "handbook.pdf");
     in_cache_name := "stolen"; in_process := true;
     in_sp_link := "https://contoso.sharepoint.com/:f:/s/policies";
     in_cache_name_sp := "stolen"; in_autosync := true; in_load_sp := true;
     in_caches := ["handbook"; "policies"];
     in_selected_cache := "handbook"; in_load_selected := true; in_clear := true;
     in_autosync_cache := "policies"; in_new_val := false; in_save_autosync := true;
     in_back := true |}.

(** "Load selected cache into memory" pressed with "handbook" selected. *)
Definition load_handbook_inputs : settings_inputs :=
  {| in_selected := placeholder; in_settings_clicked := false;
     in_pwd := ""; in_unlock := false;
     in_uploaded_file := None; in_cache_name := ""; in_process := false;
     in_sp_link := ""; in_cache_name_sp := ""; in_autosync := true; in_load_sp := false;
     in_caches := ["handbook"; "policies"];
     in_selected_cache := "handbook"; in_load_selected := true; in_clear := false;
     in_autosync_cache := placeholder; in_new_val := false; in_save_autosync := false;
     in_back := false |}.

(** ** Session defaults *)

(** The loop over [defaults.items()] at the top of the script: a key that is
    not yet in [st.session_state] gets its default. *)
Definition init_session_state {V} (defaults : list (string * V)) (state : gmap string V)
  : gmap string V :=
  foldl (fun st kv => if decide (is_Some (st !! kv.1)) then st else <[kv.1 := kv.2]> st)
        state defaults.

(** The defaults of the keys [qa], [current_cache_name] and [page]. *)
Definition page_defaults : list (string * value) :=
  [("qa", VNone); ("current_cache_name", VNone); ("page", VStr "chat")].

(** * Properties *)

Local Open Scope list_scope.

(** ** Manifest construction *)

Section ManifestFacts.

Implicit Types (f g : gmap string value) (files pre post : list (gmap string value)).

Lemma id_etag_map_nil : id_etag_map [] = ∅.
Proof. reflexivity. Qed.

Lemma id_etag_map_snoc files f :
  id_etag_map (files ++ [f]) = <[get "id" f := get "etag" f]> (id_etag_map files).
Proof. unfold id_etag_map. by rewrite foldl_snoc. Qed.

(** The comprehension is the map of the reversed list of (id, etag) pairs:
    [list_to_map] keeps the first binding of a key. *)
Lemma id_etag_map_list_to_map files :
  id_etag_map files = list_to_map (reverse (id_etag <$> files)).
Proof.
  induction files as [|f files IH] using rev_ind; [done|].
  rewrite id_etag_map_snoc, IH, fmap_app, reverse_app. done.
Qed.

Lemma id_etag_fst files : (id_etag <$> files).*1 = get "id" <$> files.
Proof. rewrite <- list_fmap_compose. done. Qed.

Lemma id_etag_map_lookup_None files k :
  id_etag_map files !! k = None ↔ k ∉ (get "id" <$> files).
Proof.
  rewrite id_etag_map_list_to_map, <- not_elem_of_list_to_map.
  rewrite <- fmap_reverse, id_etag_fst, fmap_reverse, elem_of_reverse. done.
Qed.

Lemma id_etag_map_last_wins pre f post :
  Forall (fun g => get "id" g ≠ get "id" f) post →
  id_etag_map (pre ++ f :: post) !! get "id" f = Some (get "etag" f).
Proof.
  induction post as [|g post IH] using rev_ind; intros Hpost.
  - rewrite id_etag_map_snoc. apply lookup_insert_eq.
  - rewrite Forall_app, Forall_singleton in Hpost. destruct Hpost as [Hpost Hg].
    replace (pre ++ f :: post ++ [g]) with ((pre ++ f :: post) ++ [g])
      by (by rewrite <- app_assoc).
    rewrite id_etag_map_snoc, lookup_insert_ne by done. auto.
Qed.

Lemma id_etag_map_size files :
  (size (id_etag_map files) ≤ length files)%nat ∧
  (size (id_etag_map files) = length files ↔ NoDup (get "id" <$> files)).
Proof.
  induction files as [|f files [IHle IHeq]] using rev_ind.
  - rewrite id_etag_map_nil, map_size_empty. simpl. split; [lia|].
    split; [constructor|done].
  - rewrite id_etag_map_snoc, fmap_app, length_app. simpl.
    rewrite NoDup_app.
    destruct (id_etag_map files !! get "id" f) as [e|] eqn:Hk.
    + rewrite map_size_insert_Some by eauto. split; [lia|].
      split; [lia|]. intros (_ & Hfresh & _). exfalso.
      assert (Hin : get "id" f ∈ get "id" <$> files).
      { destruct (decide (get "id" f ∈ get "id" <$> files)) as [|Hn]; [done|].
        apply id_etag_map_lookup_None in Hn. congruence. }
      apply (Hfresh _ Hin). apply list_elem_of_singleton. done.
    + rewrite map_size_insert_None by done. split; [lia|].
      apply id_etag_map_lookup_None in Hk.
      split.
      * intros Hsz. split_and!.
        -- apply IHeq. lia.
        -- intros x Hx ->%list_elem_of_singleton. done.
        -- apply NoDup_singleton.
      * intros (Hnd & _ & _). apply IHeq in Hnd. lia.
Qed.

Lemma id_etag_map_perm files1 files2 :
  NoDup (get "id" <$> files1) → files1 ≡ₚ files2 →
  id_etag_map files1 = id_etag_map files2.
Proof.
  intros Hnd Hperm. rewrite !id_etag_map_list_to_map.
  apply list_to_map_proper.
  - rewrite <- fmap_reverse, id_etag_fst, fmap_reverse.
    by rewrite reverse_Permutation.
  - rewrite !reverse_Permutation. by apply fmap_Permutation.
Qed.

Lemma id_etag_map_ext files1 files2 :
  id_etag <$> files1 = id_etag <$> files2 → id_etag_map files1 = id_etag_map files2.
Proof. intros Heq. by rewrite !id_etag_map_list_to_map, Heq. Qed.

Lemma manifests_equal_spec a b :
  manifests_equal a b = true ↔ m_map a = m_map b ∧ m_count a = m_count b.
Proof.
  unfold manifests_equal.
  rewrite andb_true_iff, !bool_decide_eq_true. done.
Qed.

End ManifestFacts.

(** ** Change detection *)

(** C2: [manifests_equal a b] holds exactly when the id-to-etag maps of [a]
    and [b] are equal as mappings (same keys, same values; a manifest
    without a map only matches another one without) and their counts are
    equal. *)
Theorem manifests_equal_iff (a b : manifest) :
  manifests_equal a b = true ↔
    match m_map a, m_map b with
    | Some ma, Some mb => same_mapping ma mb
    | None, None => True
    | _, _ => False
    end ∧ m_count a = m_count b.
Proof.
  rewrite manifests_equal_spec. unfold same_mapping.
  destruct (m_map a) as [ma|], (m_map b) as [mb|]; split; intros [Hm Hc];
    split; try done.
  - intros k. by simplify_eq.
  - f_equal. by apply map_eq.
Qed.

(** C3: the count of a built manifest is the length of the input list; the
    keys of its map are the ids of the files, each bound to the etag of its
    last occurrence; so the map has at most [count] entries, and exactly
    [count] only when no id occurs twice. *)
Theorem build_manifest_count_and_map (files : list (gmap string value)) :
  m_count (build_manifest files) = Some (length files) ∧
  ∃ mp, m_map (build_manifest files) = Some mp ∧
    (∀ k, mp !! k = None ↔ k ∉ (get "id" <$> files)) ∧
    (∀ pre f post,
        files = pre ++ f :: post →
        Forall (fun g => get "id" g ≠ get "id" f) post →
        mp !! get "id" f = Some (get "etag" f)) ∧
    (size mp ≤ length files)%nat ∧
    (size mp = length files ↔ NoDup (get "id" <$> files)).
Proof.
  split; [done|]. exists (id_etag_map files). split; [done|].
  split_and!.
  - apply id_etag_map_lookup_None.
  - intros pre f post -> Hpost. by apply id_etag_map_last_wins.
  - apply id_etag_map_size.
  - apply id_etag_map_size.
Qed.

(** C8: two listings with unique ids that are permutations of each other
    give manifests that compare equal. *)
Theorem permuted_listings_compare_equal (files1 files2 : list (gmap string value)) :
  NoDup (get "id" <$> files1) →
  files1 ≡ₚ files2 →
  manifests_equal (build_manifest files1) (build_manifest files2) = true.
Proof.
  intros Hnd Hperm. apply manifests_equal_spec. simpl. split.
  - f_equal. by apply id_etag_map_perm.
  - f_equal. by apply Permutation_length.
Qed.

Lemma same_identity_id_etag files1 files2 :
  Forall2 same_identity files1 files2 → id_etag <$> files1 = id_etag <$> files2.
Proof.
  induction 1 as [|f g files1 files2 [Hid Het] _ IH]; [done|].
  rewrite !fmap_cons, IH. unfold id_etag. by rewrite Hid, Het.
Qed.

Lemma same_identity_manifests_equal files1 files2 :
  Forall2 same_identity files1 files2 →
  manifests_equal (build_manifest files1) (build_manifest files2) = true.
Proof.
  intros H. apply manifests_equal_spec. simpl. split; f_equal.
  - by apply id_etag_map_ext, same_identity_id_etag.
  - by eapply Forall2_length.
Qed.

Lemma substring_prefix (n : nat) (s : string) :
  ∃ rest, s = (substring 0 n s ++ rest)%string ∧
          String.length (substring 0 n s) = Nat.min n (String.length s).
Proof.
  revert n. induction s as [|c s IH]; intros [|n].
  - by exists ""%string.
  - by exists ""%string.
  - by exists (String c s).
  - destruct (IH n) as (rest & Hs & Hlen). exists rest. simpl.
    unfold String.app. simpl. split; [by f_equal|by f_equal].
Qed.

(** ** Remote traversal and retrieval only record calls *)

Section SyncProperties.

Context {QA VS Store : Type}.
Variable E : env QA VS Store.

Abbreviation world := (world QA Store).
Abbreviation M := (M QA Store).
Abbreviation logs := (logs_only (QA:=QA) (Store:=Store)).

Lemma add_trace_nil (w : world) : add_trace [] w = w.
Proof. destruct w. unfold add_trace. simpl. by rewrite app_nil_r. Qed.

Lemma add_trace_app evs1 evs2 (w : world) :
  add_trace evs2 (add_trace evs1 w) = add_trace (evs1 ++ evs2) w.
Proof. unfold add_trace. simpl. by rewrite app_assoc. Qed.

Lemma logs_only_ret P {A} (a : A) : logs P (ret a).
Proof. intros w. exists []. by rewrite add_trace_nil. Qed.

Lemma logs_only_raise P {A} e : logs P (raise (A:=A) e).
Proof. intros w. exists []. by rewrite add_trace_nil. Qed.

Lemma logs_only_lift P {A} (r : result A) : logs P (lift r).
Proof. intros w. exists []. by rewrite add_trace_nil. Qed.

Lemma logs_only_emit (P : event → bool) ev : P ev = true → logs P (emit ev).
Proof. intros HP w. exists [ev]. split; [done|]. by constructor. Qed.

Lemma logs_only_bind P {A B} (m : M A) (k : A → M B) :
  logs P m → (∀ a, logs P (k a)) → logs P (bind m k).
Proof.
  intros Hm Hk w. unfold bind. destruct (Hm w) as (evs1 & Hw1 & H1).
  destruct (m w) as [[a|e] w1]; simpl in Hw1; subst w1.
  - destruct (Hk a (add_trace evs1 w)) as (evs2 & Hw2 & H2).
    exists (evs1 ++ evs2). rewrite Hw2, add_trace_app.
    split; [done|]. by apply Forall_app.
  - by exists evs1.
Qed.

Lemma logs_only_bind_ok P {A B} (a : A) (k : A → M B) :
  logs P (k a) → logs P (bind (lift (Ok a)) k).
Proof. intros Hk w. apply Hk. Qed.

Lemma logs_only_bind_raise P {A B} e (k : A → M B) :
  logs P (bind (lift (Raise e)) k).
Proof. intros w. exists []. by rewrite add_trace_nil. Qed.

Create HintDb frame.

#[local] Hint Resolve logs_only_ret logs_only_raise logs_only_lift
  logs_only_emit logs_only_bind : frame.

Lemma get_graph_token_logs : logs is_remote_read (get_graph_token E).
Proof. unfold get_graph_token. destruct (credentials_set E); simpl; auto with frame. Qed.

Lemma share_link_to_drive_item_meta_logs link token :
  logs is_remote_read (share_link_to_drive_item_meta E link token).
Proof. unfold share_link_to_drive_item_meta. auto with frame. Qed.

Lemma drive_id_from_item_logs item_id lookup :
  logs is_remote_read (drive_id_from_item item_id lookup).
Proof. unfold drive_id_from_item. auto 6 with frame. Qed.

(** Induction on remote trees: the children listed by a folder satisfy the
    property. *)
Lemma item_tree_ind (P : item → Prop) :
  (∀ j is_file is_folder drive lookup e,
      P (Item j is_file is_folder drive lookup (Raise e))) →
  (∀ j is_file is_folder drive lookup cs,
      Forall P cs → P (Item j is_file is_folder drive lookup (Ok cs))) →
  ∀ it, P it.
Proof.
  intros Hraise Hok. fix IH 1. intros [j is_file is_folder drive lookup [cs|e]].
  - apply Hok. induction cs as [|c cs IHcs]; constructor; [apply IH|apply IHcs].
  - apply Hraise.
Qed.

Lemma walk_logs it :
  ∀ results, logs is_remote_read (walk (QA:=QA) (Store:=Store) it results).
Proof.
  induction it as [j is_file is_folder drive lookup e
                  |j is_file is_folder drive lookup cs IH] using item_tree_ind;
    intros results; simpl.
  - destruct is_file; [auto with frame|].
    destruct is_folder; [|auto with frame].
    apply logs_only_bind.
    { destruct (negb (truthy drive)); auto using drive_id_from_item_logs with frame. }
    intros drive_id. apply logs_only_bind; [auto with frame|]. intros _.
    apply logs_only_bind_raise.
  - destruct is_file; [auto with frame|].
    destruct is_folder; [|auto with frame].
    apply logs_only_bind.
    { destruct (negb (truthy drive)); auto using drive_id_from_item_logs with frame. }
    intros drive_id. apply logs_only_bind; [auto with frame|]. intros _.
    apply logs_only_bind_ok. clear drive_id.
    revert results. induction IH as [|c cs Hc _ IHcs]; intros results.
    + auto with frame.
    + apply logs_only_bind; [apply Hc|]. intros results'. apply IHcs.
Qed.

Lemma collect_files_logs root token :
  logs is_remote_read (collect_files_recursively_from_item (QA:=QA) (Store:=Store) root token).
Proof. apply walk_logs. Qed.

Lemma remote_listing_logs link : logs is_remote_read (remote_listing E link).
Proof.
  unfold remote_listing.
  auto using get_graph_token_logs, share_link_to_drive_item_meta_logs,
    collect_files_logs with frame.
Qed.

Lemma download_loop_logs files :
  ∀ all_text, logs is_download (download_loop E files all_text).
Proof.
  induction files as [|f files IH]; intros all_text; simpl; [auto with frame|].
  destruct (negb (truthy (get "downloadUrl" f))); [apply IH|].
  auto 8 with frame.
Qed.

Lemma download_and_extract_text_logs files :
  logs is_download (download_and_extract_text E files).
Proof. apply download_loop_logs. Qed.

(** ** The orchestrator, phase by phase *)

Lemma maybe_autosync_no_cache (w : world) :
  session_cache w = None ∨ session_cache w = Some "" →
  maybe_autosync_current_cache E w = (Ok tt, w).
Proof.
  intros [H|H]; unfold maybe_autosync_current_cache, bind, current_cache_name;
    rewrite H; reflexivity.
Qed.

Lemma maybe_autosync_disabled (w : world) cache :
  session_cache w = Some cache →
  autosync_enabled (load_config (config_files w) cache) = false →
  maybe_autosync_current_cache E w = (Ok tt, w).
Proof.
  intros Hc Hoff.
  unfold maybe_autosync_current_cache, bind, current_cache_name.
  rewrite Hc. destruct (String.eqb cache ""); [done|].
  unfold read_cache_config. unfold autosync_enabled in Hoff.
  destruct (bool_decide _); simpl in *; [|done].
  destruct (default false _); simpl in *; [|done].
  rewrite Hoff. done.
Qed.

Lemma maybe_autosync_enabled (w : world) cache :
  session_cache w = Some cache → cache ≠ "" →
  autosync_enabled (load_config (config_files w) cache) = true →
  maybe_autosync_current_cache E w =
    try_except
      (let* files := remote_listing E (share_link_of (load_config (config_files w) cache)) in
       if negb (listing_unchanged (load_config (config_files w) cache) files)
       then resync E cache (load_config (config_files w) cache) files
       else ret tt)
      (fun e => emit (EvWarning e)) w.
Proof.
  intros Hc Hne Hon.
  unfold maybe_autosync_current_cache, bind at 1, current_cache_name.
  rewrite Hc. apply String.eqb_neq in Hne. rewrite Hne.
  unfold bind at 1, read_cache_config. unfold autosync_enabled in Hon.
  apply andb_true_iff in Hon as [Hon Hlink].
  apply andb_true_iff in Hon as [Htype Hauto].
  rewrite Htype, Hauto, Hlink. simpl.
  unfold try_except, remote_listing, listing_unchanged, resync, bind.
  destruct (get_graph_token E w) as [[token|e] w1]; [|done].
  destruct (share_link_to_drive_item_meta E _ token w1) as [[root|e] w2]; [|done].
  destruct (collect_files_recursively_from_item root token w2) as [[files|e] w3]; done.
Qed.

Lemma resync_total cache cfg files (w1 : world) :
  resync_outcome E cache cfg files w1
    (resync E cache cfg files w1).1 (resync E cache cfg files w1).2.
Proof.
  unfold resync, bind.
  destruct (download_and_extract_text E files w1) as [[text|e] w2] eqn:Hdl;
    [|by apply Download_failed].
  unfold rebuild_vectorstore_and_save, bind, emit, lift. simpl.
  destruct (build_qa_engine E text cache) as [[qa vs]|e] eqn:Hbuild;
    [|by eapply Build_failed].
  unfold call_save_vectorstore. simpl.
  destruct (save_vectorstore E vs cache (index_store w2)) as [[[]|e] store'] eqn:Hsave;
    [|simpl; rewrite <- app_assoc; by eapply Save_failed].
  unfold set_session, write_cache_config, store_config, raise, bind, emit. simpl.
  destruct (fs_fault E cache (set_manifest (build_manifest files) cfg))
    as [[e|e]|] eqn:Hfault; simpl; rewrite <- !app_assoc; simpl.
  - by apply (Write_failed E _ _ _ _ text w2 qa vs store' (FailBeforeOpen e)).
  - by apply (Write_failed E _ _ _ _ text w2 qa vs store' (FailDuringDump e)).
  - by eapply Synced.
Qed.

Lemma sync_active_dec (w : world) :
  (∃ cache, sync_active w cache) ∨
  maybe_autosync_current_cache E w = (Ok tt, w) ∧ ∀ cache, ¬ sync_active w cache.
Proof.
  destruct (session_cache w) as [cache|] eqn:Hc.
  - destruct (decide (cache = "")) as [->|Hne].
    { right. split; [apply maybe_autosync_no_cache; auto|].
      intros cache (Hc' & Hne & _). congruence. }
    destruct (autosync_enabled (load_config (config_files w) cache)) eqn:Hon.
    + left. by exists cache.
    + right. split; [by eapply maybe_autosync_disabled|].
      intros cache' (Hc' & _ & Hon'). congruence.
  - right. split; [apply maybe_autosync_no_cache; auto|].
    intros cache (Hc' & _). congruence.
Qed.

Lemma maybe_autosync_outcome (w : world) :
  (maybe_autosync_current_cache E w).1 = Ok tt ∧
  autosync_outcome E w (maybe_autosync_current_cache E w).2.
Proof.
  destruct (sync_active_dec w) as [[cache Hact]|[-> Hoff]];
    [|split; [done|by apply Not_attempted]].
  pose proof Hact as (Hc & Hne & Hon).
  rewrite (maybe_autosync_enabled w cache) by done.
  unfold try_except, bind.
  destruct (remote_listing E _ w) as [[files|e] w1] eqn:Hlist;
    [|split; [done|by eapply Listing_failed]].
  destruct (listing_unchanged _ files) eqn:Hsame; simpl;
    [split; [done|by eapply Listing_same]|].
  pose proof (resync_total cache (load_config (config_files w) cache) files w1) as Hout.
  destruct (resync E cache _ files w1) as [[[]|e] w2]; simpl in Hout.
  - split; [done|by eapply Resync_done].
  - split; [done|by eapply Resync_failed].
Qed.

Lemma logs_only_run P {A} (m : M A) (w w' : world) r :
  logs P m → m w = (r, w') →
  ∃ evs, w' = add_trace evs w ∧ Forall (fun ev => P ev = true) evs.
Proof. intros Hm Hrun. destruct (Hm w) as (evs & Hw & HP). rewrite Hrun in Hw. eauto. Qed.

(** ** Etag of a file item *)

Lemma descriptor_of_etag j etag : get "etag" (descriptor_of j etag) = etag.
Proof. reflexivity. Qed.

(** C7: a file item yields exactly one descriptor.  Its etag is the item's
    eTag when the item has a (truthy) one; otherwise it is the first 32
    characters of the download URL when the item carries one; and it is the
    empty string when the item has neither. *)
Theorem file_item_etag (j : gmap string value) is_folder drive lookup children
    (results : list (gmap string value)) (w : world) :
  (truthy (get "eTag" j) = true →
     ∃ d, walk (Item j true is_folder drive lookup children) results w
            = (Ok (results ++ [d]), w) ∧
          get "etag" d = get "eTag" j) ∧
  (truthy (get "eTag" j) = false →
     ∀ url, j !! download_url_key = Some (VStr url) →
     ∃ d, walk (Item j true is_folder drive lookup children) results w
            = (Ok (results ++ [d]), w) ∧
          get "etag" d = VStr (substring 0 32 url) ∧
          ∃ rest, url = (substring 0 32 url ++ rest)%string ∧
                  String.length (substring 0 32 url) = Nat.min 32 (String.length url)) ∧
  (truthy (get "eTag" j) = false →
     j !! download_url_key = None →
     ∃ d, walk (Item j true is_folder drive lookup children) results w
            = (Ok (results ++ [d]), w) ∧
          get "etag" d = VStr "").
Proof.
  split_and!.
  - intros He. exists (descriptor_of j (get "eTag" j)).
    split; [|apply descriptor_of_etag].
    simpl. unfold bind, lift, item_etag. by rewrite He.
  - intros He url Hurl. exists (descriptor_of j (VStr (substring 0 32 url))).
    split; [|split; [apply descriptor_of_etag|apply substring_prefix]].
    simpl. unfold bind, lift, item_etag, get_or. by rewrite He, Hurl.
  - intros He Hurl. exists (descriptor_of j (VStr "")).
    split; [|apply descriptor_of_etag].
    simpl. unfold bind, lift, item_etag, get_or. by rewrite He, Hurl.
Qed.

(** A download URL that is present but not a string (an explicit [null])
    makes the slice raise: the item yields no descriptor. *)
Lemma file_item_null_url_raises (j : gmap string value) is_folder drive lookup children
    (results : list (gmap string value)) (w : world) :
  truthy (get "eTag" j) = false →
  j !! download_url_key = Some VNone →
  ∃ e, walk (Item j true is_folder drive lookup children) results w = (Raise e, w).
Proof.
  intros He Hurl. eexists. simpl. unfold bind, lift, item_etag, get_or.
  by rewrite He, Hurl.
Qed.

(** ** Guards of the orchestrator *)

(** C6: a call that does anything at all (a remote call, a change of the
    session or of the disk) has an active cache whose configuration has type
    ["sharepoint"], autosync on and a sharing link; when one of the three
    fails the call returns with the world as it was. *)
Theorem autosync_only_when_enabled (w : world) :
  (maybe_autosync_current_cache E w ≠ (Ok tt, w) →
     ∃ cache, session_cache w = Some cache ∧ cache ≠ "" ∧
       default VNone (c_type (load_config (config_files w) cache)) = VStr "sharepoint" ∧
       default false (c_autosync (load_config (config_files w) cache)) = true ∧
       truthy (share_link_of (load_config (config_files w) cache)) = true) ∧
  (∀ cache, session_cache w = Some cache →
     default VNone (c_type (load_config (config_files w) cache)) ≠ VStr "sharepoint" ∨
     default false (c_autosync (load_config (config_files w) cache)) = false ∨
     truthy (share_link_of (load_config (config_files w) cache)) = false →
     maybe_autosync_current_cache E w = (Ok tt, w)).
Proof.
  split.
  - intros Hrun. destruct (sync_active_dec w) as [[cache Hact]|[Hsame _]]; [|done].
    destruct Hact as (Hc & Hne & Hon). exists cache.
    unfold autosync_enabled in Hon.
    apply andb_true_iff in Hon as [Hon Hlink].
    apply andb_true_iff in Hon as [Htype Hauto].
    apply bool_decide_eq_true in Htype. done.
  - intros cache Hc Hoff. apply (maybe_autosync_disabled w cache Hc).
    unfold autosync_enabled.
    destruct Hoff as [Htype|[Hauto|Hlink]].
    + by rewrite (bool_decide_eq_false_2 _ Htype).
    + rewrite Hauto. by rewrite andb_false_r.
    + rewrite Hlink. by rewrite andb_false_r.
Qed.

(** ** Unchanged listing *)

Lemma unchanged_listing_returns (w w1 : world) cache files :
  sync_active w cache →
  remote_listing E (share_link_of (load_config (config_files w) cache)) w = (Ok files, w1) →
  listing_unchanged (load_config (config_files w) cache) files = true →
  maybe_autosync_current_cache E w = (Ok tt, w1) ∧
  ∃ evs, w1 = add_trace evs w ∧ Forall (fun ev => is_remote_read ev = true) evs.
Proof.
  intros (Hc & Hne & Hon) Hlist Hsame. split.
  - rewrite (maybe_autosync_enabled w cache) by done.
    unfold try_except, bind. by rewrite Hlist, Hsame.
  - eapply logs_only_run; [apply remote_listing_logs|done].
Qed.

(** C4: when the manifest built from the remote listing equals the stored
    one, the call returns normally; the in-memory engine, the active cache,
    every configuration file (so the stored manifest) and the stored indexes
    are as before, and the only calls made are the remote reads of the
    listing: no download, no rebuild, no index save, no config write. *)
Theorem unchanged_listing_no_side_effects (w w1 : world) cache files :
  session_cache w = Some cache → cache ≠ "" →
  autosync_enabled (load_config (config_files w) cache) = true →
  remote_listing E (share_link_of (load_config (config_files w) cache)) w = (Ok files, w1) →
  manifests_equal (build_manifest files)
    (default empty_manifest (c_manifest (load_config (config_files w) cache))) = true →
  (maybe_autosync_current_cache E w).1 = Ok tt ∧
  session_qa (maybe_autosync_current_cache E w).2 = session_qa w ∧
  session_cache (maybe_autosync_current_cache E w).2 = session_cache w ∧
  config_files (maybe_autosync_current_cache E w).2 = config_files w ∧
  index_store (maybe_autosync_current_cache E w).2 = index_store w ∧
  ∃ evs, trace (maybe_autosync_current_cache E w).2 = trace w ++ evs ∧
         Forall (fun ev => is_remote_read ev = true) evs.
Proof.
  intros Hc Hne Hon Hlist Hsame.
  destruct (unchanged_listing_returns w w1 cache files) as (-> & evs & -> & Hevs);
    [done..|].
  simpl. split_and!; try done. by exists evs.
Qed.

(** ** Changed listing *)

Lemma filter_none {A} (p : A → bool) (l : list A) :
  Forall (fun x => p x = false) l → List.filter p l = [].
Proof. induction 1 as [|x l Hx _ IH]; simpl; [done|]. by rewrite Hx. Qed.

Lemma reads_not_mutation evs :
  Forall (fun ev => is_remote_read ev = true) evs →
  Forall (fun ev => is_mutation ev = false) evs.
Proof. intros H. eapply Forall_impl; [exact H|]. by intros []. Qed.

Lemma downloads_not_mutation evs :
  Forall (fun ev => is_download ev = true) evs →
  Forall (fun ev => is_mutation ev = false) evs.
Proof. intros H. eapply Forall_impl; [exact H|]. by intros []. Qed.

Lemma mutation_not_write evs :
  Forall (fun ev => is_mutation ev = false) evs →
  Forall (fun ev => is_write_config ev = false) evs.
Proof. intros H. eapply Forall_impl; [exact H|]. by intros []. Qed.

(** What a resync leaves behind, whichever step it stops at. *)
Lemma resync_outcome_frame cache cfg files (w1 w2 : world) r :
  resync_outcome E cache cfg files w1 r w2 →
  ∃ evs, trace w2 = trace w1 ++ evs ∧
    (Forall (fun ev => is_write_config ev = false) evs →
       session_qa w2 = session_qa w1 ∧ session_cache w2 = session_cache w1 ∧
       config_files w2 = config_files w1) ∧
    (config_files w2 ≠ config_files w1 →
       ∃ text qa vs, build_qa_engine E text cache = Ok (qa, vs) ∧
         save_vectorstore E vs cache (index_store w1) = (Ok tt, index_store w2)).
Proof.
  intros Hout.
  assert (Hdl : ∀ r' w', download_and_extract_text E files w1 = (r', w') →
            ∃ dls, w' = add_trace dls w1).
  { intros r' w' Hrun.
    destruct (logs_only_run _ _ _ _ _ (download_and_extract_text_logs files) Hrun)
      as (dls & -> & _). eauto. }
  inversion Hout as [e w2' H1|text w2' e H1 H2|text w2' qa vs e st H1 H2 H3
                    |text w2' qa vs st fault H1 H2 H3 H4|text w2' qa vs st H1 H2 H3 H4];
    subst; destruct (Hdl _ _ H1) as [dls ->]; simpl in *.
  - exists dls. done.
  - exists (dls ++ [EvBuild cache text]). rewrite app_assoc. done.
  - exists (dls ++ [EvBuild cache text; EvSaveIndex cache]). rewrite app_assoc. done.
  - eexists (dls ++ [_; _; _]). rewrite app_assoc. split; [done|]. split.
    + intros Hno. apply Forall_app in Hno as [_ Hno].
      by do 2 apply Forall_cons in Hno as [_ Hno]; apply Forall_cons in Hno as [? _].
    + intros _. eauto.
  - eexists (dls ++ [_; _; _; _]). rewrite app_assoc. split; [done|]. split.
    + intros Hno. apply Forall_app in Hno as [_ Hno].
      by do 2 apply Forall_cons in Hno as [_ Hno]; apply Forall_cons in Hno as [? _].
    + intros _. eauto.
Qed.

(** A config file changes only in a call that has saved the index. *)
Lemma config_written_after_index_saved (w w' : world) :
  autosync_outcome E w w' →
  config_files w' ≠ config_files w →
  ∃ cache text qa vs, sync_active w cache ∧
    build_qa_engine E text cache = Ok (qa, vs) ∧
    save_vectorstore E vs cache (index_store w) = (Ok tt, index_store w').
Proof.
  intros Hout Hchg.
  assert (Hls : ∀ link r w1, remote_listing E link w = (r, w1) →
            ∃ evs, w1 = add_trace evs w).
  { intros link r w1 Hrun.
    destruct (logs_only_run _ _ _ _ _ (remote_listing_logs link) Hrun)
      as (evs & -> & _). eauto. }
  inversion Hout as [Hoff|cache e w1 Hact Hl|cache files w1 Hact Hl Hsame
                    |cache files w1 e w2 Hact Hl Hdiff Hre
                    |cache files w1 w2 Hact Hl Hdiff Hre]; subst.
  - done.
  - destruct (Hls _ _ _ Hl) as [evs ->]. done.
  - destruct (Hls _ _ _ Hl) as [evs ->]. done.
  - destruct (Hls _ _ _ Hl) as [evs ->].
    destruct (resync_outcome_frame _ _ _ _ _ _ Hre) as (evs' & _ & _ & Hsaved).
    destruct (Hsaved Hchg) as (text & qa & vs & Hb & Hs). exists cache, text, qa, vs. done.
  - destruct (Hls _ _ _ Hl) as [evs ->].
    destruct (resync_outcome_frame _ _ _ _ _ _ Hre) as (evs' & _ & _ & Hsaved).
    destruct (Hsaved Hchg) as (text & qa & vs & Hb & Hs). exists cache, text, qa, vs. done.
Qed.

(** C1: when the manifest built from the remote listing differs from the
    stored one, a config file is changed only by a call in which the rebuilt
    index has been saved; and when download, extraction, rebuild, index save
    and config write all succeed, the call makes exactly one rebuild, one
    index save and one config write, in this order, and ends with the
    rebuilt engine in memory, the saved index in the store and, in the
    cache's config file, the old configuration with the freshly built
    manifest. *)
Theorem changed_listing_rebuilds_once (w w1 : world) cache files :
  session_cache w = Some cache → cache ≠ "" →
  autosync_enabled (load_config (config_files w) cache) = true →
  remote_listing E (share_link_of (load_config (config_files w) cache)) w = (Ok files, w1) →
  manifests_equal (build_manifest files)
    (default empty_manifest (c_manifest (load_config (config_files w) cache))) = false →
  (config_files (maybe_autosync_current_cache E w).2 ≠ config_files w →
     ∃ text qa vs,
       build_qa_engine E text cache = Ok (qa, vs) ∧
       save_vectorstore E vs cache (index_store w)
         = (Ok tt, index_store (maybe_autosync_current_cache E w).2)) ∧
  (∀ text w2 qa vs store',
     download_and_extract_text E files w1 = (Ok text, w2) →
     build_qa_engine E text cache = Ok (qa, vs) →
     save_vectorstore E vs cache (index_store w) = (Ok tt, store') →
     fs_fault E cache (set_manifest (build_manifest files) (load_config (config_files w) cache))
       = None →
     (maybe_autosync_current_cache E w).1 = Ok tt ∧
     (∃ evs, trace (maybe_autosync_current_cache E w).2 = trace w ++ evs ∧
        List.filter is_mutation evs =
          [EvBuild cache text; EvSaveIndex cache;
           EvWriteConfig cache
             (set_manifest (build_manifest files) (load_config (config_files w) cache))]) ∧
     session_qa (maybe_autosync_current_cache E w).2 = Some qa ∧
     session_cache (maybe_autosync_current_cache E w).2 = Some cache ∧
     index_store (maybe_autosync_current_cache E w).2 = store' ∧
     config_files (maybe_autosync_current_cache E w).2 =
       <[cache := Valid (set_manifest (build_manifest files)
                           (load_config (config_files w) cache))]> (config_files w) ∧
     c_manifest (load_config (config_files (maybe_autosync_current_cache E w).2) cache)
       = Some (build_manifest files)).
Proof.
  intros Hc Hne Hon Hlist Hdiff. split.
  - intros Hchg.
    destruct (config_written_after_index_saved w _ (proj2 (maybe_autosync_outcome w)) Hchg)
      as (cache' & text & qa & vs & (Hc' & _) & Hb & Hs).
    assert (cache' = cache) as -> by congruence. eauto.
  - intros text w2 qa vs store' Hdl Hbuild Hsave Hfault.
    destruct (logs_only_run _ _ _ _ _ (remote_listing_logs _) Hlist)
      as (reads & -> & Hreads).
    destruct (logs_only_run _ _ _ _ _ (download_and_extract_text_logs _) Hdl)
      as (dls & -> & Hdls).
    assert (Hrun : maybe_autosync_current_cache E w =
              (Ok tt,
               World (Some qa) (Some cache)
                 (<[cache := Valid (set_manifest (build_manifest files)
                                      (load_config (config_files w) cache))]>
                    (config_files w))
                 store'
                 (trace w ++ reads ++ dls ++
                    [EvBuild cache text; EvSaveIndex cache;
                     EvWriteConfig cache
                       (set_manifest (build_manifest files)
                          (load_config (config_files w) cache));
                     EvToast cache]))).
    { rewrite (maybe_autosync_enabled w cache) by done.
      unfold try_except, bind at 1. rewrite Hlist. unfold listing_unchanged.
      rewrite Hdiff. simpl.
      unfold resync, bind at 1. rewrite Hdl.
      unfold rebuild_vectorstore_and_save, write_cache_config, call_save_vectorstore,
        set_session, store_config, bind, emit, lift. simpl.
      rewrite Hbuild. simpl. rewrite Hsave, Hfault. simpl.
      by rewrite <- !app_assoc. }
    rewrite Hrun. simpl. split_and!; try done.
    + eexists. split; [reflexivity|].
      rewrite !List.filter_app.
      rewrite (filter_none _ _ (reads_not_mutation _ Hreads)).
      rewrite (filter_none _ _ (downloads_not_mutation _ Hdls)). done.
    + unfold load_config. by rewrite lookup_insert_eq.
Qed.

(** ** Failed attempts *)

(** C5 (as amended): every failure raised during a sync attempt is caught,
    the call returns normally.  When the attempt fails before it reaches the
    config write (authentication, listing, download, extraction, rebuild or
    index save), the in-memory engine, the active cache and every config
    file are as before, so any query is answered as before. *)
Theorem failed_sync_before_config_write (w : world) :
  (maybe_autosync_current_cache E w).1 = Ok tt ∧
  ∃ evs, trace (maybe_autosync_current_cache E w).2 = trace w ++ evs ∧
    (Exists (fun ev => is_warning ev = true) evs →
     Forall (fun ev => is_write_config ev = false) evs →
     session_qa (maybe_autosync_current_cache E w).2 = session_qa w ∧
     session_cache (maybe_autosync_current_cache E w).2 = session_cache w ∧
     config_files (maybe_autosync_current_cache E w).2 = config_files w ∧
     ∀ A (run : QA → string → A) q,
       answer run (maybe_autosync_current_cache E w).2 q = answer run w q).
Proof.
  destruct (maybe_autosync_outcome w) as [Hok Hout]. split; [done|].
  remember (maybe_autosync_current_cache E w).2 as w' eqn:Hw'. clear Hw' Hok.
  assert (Hls : ∀ link r w1, remote_listing E link w = (r, w1) →
            ∃ evs, w1 = add_trace evs w ∧
                   Forall (fun ev => is_write_config ev = false) evs).
  { intros link r w1 Hrun.
    destruct (logs_only_run _ _ _ _ _ (remote_listing_logs link) Hrun)
      as (evs & -> & Hevs). eauto using mutation_not_write, reads_not_mutation. }
  assert (Hsame : ∀ w0 : world,
            session_qa w0 = session_qa w → session_cache w0 = session_cache w →
            config_files w0 = config_files w →
            session_qa w0 = session_qa w ∧ session_cache w0 = session_cache w ∧
            config_files w0 = config_files w ∧
            ∀ A (run : QA → string → A) q, answer run w0 q = answer run w q).
  { intros w0 Hq Hc Hf. split_and!; try done. intros A run q. unfold answer. by rewrite Hq. }
  destruct Hout as [Hoff|cache e w1 Hact Hl|cache files w1 Hact Hl Hsm
                   |cache files w1 e w2 Hact Hl Hdiff Hre
                   |cache files w1 w2 Hact Hl Hdiff Hre].
  - exists []. split; [by rewrite app_nil_r|]. intros _ _. by apply Hsame.
  - destruct (Hls _ _ _ Hl) as (evs & -> & _).
    exists (evs ++ [EvWarning e]). split; [simpl; by rewrite app_assoc|].
    intros _ _. by apply Hsame.
  - destruct (Hls _ _ _ Hl) as (evs & -> & _).
    exists evs. split; [done|]. intros _ _. by apply Hsame.
  - destruct (Hls _ _ _ Hl) as (evs & -> & Hevs).
    destruct (resync_outcome_frame _ _ _ _ _ _ Hre) as (evs' & Htr & Hkeep & _).
    exists (evs ++ evs' ++ [EvWarning e]).
    split; [simpl; rewrite Htr; simpl; by rewrite <- !app_assoc|].
    intros _ Hno. apply Forall_app in Hno as [_ Hno].
    apply Forall_app in Hno as [Hno _].
    destruct (Hkeep Hno) as (Hq & Hc & Hf). by apply Hsame.
  - destruct (Hls _ _ _ Hl) as (evs & -> & Hevs).
    destruct (resync_outcome_frame _ _ _ _ _ _ Hre) as (evs' & Htr & Hkeep & _).
    exists (evs ++ evs'). split; [rewrite Htr; simpl; by rewrite <- app_assoc|].
    intros _ Hno. apply Forall_app in Hno as [_ Hno].
    destruct (Hkeep Hno) as (Hq & Hc & Hf). by apply Hsame.
Qed.

(** ** Content retrieval *)

Lemma string_app_assoc (s1 s2 s3 : string) :
  ((s1 ++ s2) ++ s3)%string = (s1 ++ (s2 ++ s3))%string.
Proof. induction s1 as [|c s1 IH]; [done|]. unfold String.app in *. simpl. by rewrite IH. Qed.

Lemma string_app_nil_r (s : string) : (s ++ "")%string = s.
Proof. induction s as [|c s IH]; [done|]. unfold String.app in *. simpl. by rewrite IH. Qed.

Lemma download_loop_skip files :
  ∀ all_text (w : world),
    download_loop E files all_text w
    = download_loop E (List.filter has_download_url files) all_text w.
Proof.
  induction files as [|f files IH]; intros all_text w; [done|].
  simpl. unfold has_download_url.
  destruct (truthy (get "downloadUrl" f)) eqn:Hurl; simpl.
  - rewrite Hurl. simpl. unfold bind.
    destruct (emit _ w) as [[[]|e] w1]; [|done].
    destruct (lift _ w1) as [[content|e] w2]; [|done].
    destruct (emit _ w2) as [[[]|e] w3]; [|done].
    destruct (lift _ w3) as [[text|e] w4]; [|done].
    apply IH.
  - apply IH.
Qed.

Lemma download_loop_all_ok files texts :
  Forall (fun f => has_download_url f = true) files →
  Forall2 (fun f text => fetch_text E f = Ok text) files texts →
  ∀ all_text (w : world), ∃ evs,
    download_loop E files all_text w
      = (Ok (all_text ++ join_with_blank_lines texts)%string, add_trace evs w) ∧
    requested_urls evs = get "downloadUrl" <$> files.
Proof.
  intros Hurls Hok. induction Hok as [|f text files texts Hf _ IH];
    intros all_text w.
  - exists []. simpl. by rewrite string_app_nil_r, add_trace_nil.
  - apply Forall_cons in Hurls as [Hurl Hurls]. unfold has_download_url in Hurl.
    unfold fetch_text in Hf.
    destruct (requests_get E (get "downloadUrl" f)) as [content|e] eqn:Hget; [|done].
    simpl. rewrite Hurl. simpl. unfold bind, emit, lift. simpl. rewrite Hget, Hf.
    destruct (IH Hurls (all_text ++ (text ++ blank_line))%string
                (add_trace [EvDownload (get "downloadUrl" f);
                            EvExtract (get_or "name" (VStr "file") f)] w))
      as (evs & Hrun & Hreq).
    eexists (_ :: _ :: evs). split.
    + unfold add_trace in Hrun. simpl in Hrun. rewrite <- app_assoc in Hrun.
      simpl in Hrun. rewrite <- (app_assoc (trace w)). simpl. rewrite Hrun.
      unfold add_trace. simpl. by rewrite !string_app_assoc.
    + simpl. unfold requested_urls in *. simpl. by rewrite Hreq.
Qed.

Lemma download_loop_abort pre f post e :
  Forall (fun g => has_download_url g = true) (pre ++ [f]) →
  Forall (fun g => is_ok (fetch_text E g) = true) pre →
  fetch_text E f = Raise e →
  ∀ all_text (w : world), ∃ evs,
    download_loop E (pre ++ f :: post) all_text w = (Raise e, add_trace evs w) ∧
    requested_urls evs = get "downloadUrl" <$> (pre ++ [f]).
Proof.
  intros Hurls Hpre Hf. induction pre as [|g pre IH]; intros all_text w.
  - simpl in Hurls. rewrite Forall_singleton in Hurls.
    unfold has_download_url in Hurls.
    unfold fetch_text in Hf. simpl. rewrite Hurls. simpl.
    unfold bind, emit, lift. simpl.
    destruct (requests_get E (get "downloadUrl" f)) as [content|e'] eqn:Hget.
    + rewrite Hf. eexists [_; _].
      split; [unfold add_trace; simpl; by rewrite <- app_assoc|done].
    + simplify_eq. eexists [_]. split; [reflexivity|done].
  - simpl in Hurls. apply Forall_cons in Hurls as [Hurl Hurls].
    apply Forall_cons in Hpre as [Hg Hpre]. unfold has_download_url in Hurl.
    unfold fetch_text in Hg.
    destruct (requests_get E (get "downloadUrl" g)) as [content|e'] eqn:Hget; [|done].
    destruct (get_raw_text E content _) as [text|e'] eqn:Hraw; [|done].
    simpl. rewrite Hurl. simpl. unfold bind, emit, lift. simpl. rewrite Hget, Hraw.
    destruct (IH Hurls Hpre (all_text ++ (text ++ blank_line))%string
                (add_trace [EvDownload (get "downloadUrl" g);
                            EvExtract (get_or "name" (VStr "file") g)] w))
      as (evs & Hrun & Hreq).
    eexists (_ :: _ :: evs). split.
    + unfold add_trace in Hrun. simpl in Hrun. rewrite <- app_assoc in Hrun.
      simpl in Hrun. rewrite <- (app_assoc (trace w)). simpl. by rewrite Hrun.
    + simpl. unfold requested_urls in *. simpl. by rewrite Hreq.
Qed.

Lemma filter_has_download_url files :
  Forall (fun f => has_download_url f = true) (List.filter has_download_url files).
Proof. apply List.Forall_forall. intros f Hin. by apply List.filter_In in Hin as [_ ?]. Qed.

(** C9: files whose [downloadUrl] is missing or empty are passed over, with
    no request and no error; when every remaining file is downloaded and
    extracted, they are requested in list order and the result is their
    texts in that order, each followed by a blank line; and the first
    download or extraction that raises ends the call with that exception,
    no later file being requested. *)
Theorem download_and_extract_text_spec (files : list (gmap string value)) (w : world) :
  download_and_extract_text E files w
    = download_and_extract_text E (List.filter has_download_url files) w ∧
  (∀ texts,
     Forall2 (fun f text => fetch_text E f = Ok text)
       (List.filter has_download_url files) texts →
     (download_and_extract_text E files w).1 = Ok (join_with_blank_lines texts) ∧
     ∃ evs, (download_and_extract_text E files w).2 = add_trace evs w ∧
            requested_urls evs
              = get "downloadUrl" <$> List.filter has_download_url files) ∧
  (∀ pre f post e,
     List.filter has_download_url files = pre ++ f :: post →
     Forall (fun g => is_ok (fetch_text E g) = true) pre →
     fetch_text E f = Raise e →
     (download_and_extract_text E files w).1 = Raise e ∧
     ∃ evs, (download_and_extract_text E files w).2 = add_trace evs w ∧
            requested_urls evs = get "downloadUrl" <$> (pre ++ [f])).
Proof.
  unfold download_and_extract_text. split_and!.
  - apply download_loop_skip.
  - intros texts Hok. rewrite download_loop_skip.
    destruct (download_loop_all_ok _ _ (filter_has_download_url files) Hok ""%string w)
      as (evs & -> & Hreq).
    split; [done|]. by exists evs.
  - intros pre f post e Hsplit Hpre Hf. rewrite download_loop_skip, Hsplit.
    pose proof (filter_has_download_url files) as Hurls. rewrite Hsplit in Hurls.
    assert (Hurls' : Forall (fun g => has_download_url g = true) (pre ++ [f])).
    { apply Forall_app in Hurls as [H1 H2]. apply Forall_cons in H2 as [H2 _].
      apply Forall_app. split; [done|]. by apply Forall_singleton. }
    destruct (download_loop_abort pre f post e Hurls' Hpre Hf ""%string w)
      as (evs & -> & Hreq).
    split; [done|]. by exists evs.
Qed.

(** ** Metadata-only changes *)

(** C10: the comparison never looks at the ["files"] list of a manifest, and
    two listings that agree, position by position, on id and etag give
    manifests that compare equal whatever their names, sizes and
    modification times; so when the stored manifest was built from the one
    and the remote listing now returns the other, the call makes no
    download, rebuild, save or write and changes nothing but the trace. *)
Theorem metadata_changes_not_detected :
  (∀ a b fs1 fs2,
     manifests_equal (Manifest fs1 (m_map a) (m_count a))
                     (Manifest fs2 (m_map b) (m_count b))
     = manifests_equal a b) ∧
  (∀ files1 files2 : list (gmap string value),
     Forall2 same_identity files1 files2 →
     manifests_equal (build_manifest files1) (build_manifest files2) = true ∧
     ∀ (w w1 : world) cache,
       session_cache w = Some cache → cache ≠ "" →
       autosync_enabled (load_config (config_files w) cache) = true →
       c_manifest (load_config (config_files w) cache) = Some (build_manifest files1) →
       remote_listing E (share_link_of (load_config (config_files w) cache)) w
         = (Ok files2, w1) →
       maybe_autosync_current_cache E w = (Ok tt, w1) ∧
       ∃ evs, w1 = add_trace evs w ∧
              Forall (fun ev => is_remote_read ev = true) evs).
Proof.
  split; [done|]. intros files1 files2 Hsame.
  split; [by apply same_identity_manifests_equal|].
  intros w w1 cache Hc Hne Hon Hold Hlist.
  apply (unchanged_listing_returns w w1 cache files2); [done..|].
  unfold listing_unchanged. rewrite Hold. simpl.
  apply manifests_equal_spec.
  apply same_identity_manifests_equal, manifests_equal_spec in Hsame as [Hm Hn].
  done.
Qed.

End SyncProperties.

(** * The properties on the "policies" cache *)

(** The remote folder changed: one rebuild, the new engine in memory and
    the new manifest in the config file. *)
Lemma policies_resync :
  (maybe_autosync_current_cache env_changed policies_world).1 = Ok tt ∧
  session_qa (maybe_autosync_current_cache env_changed policies_world).2
    = Some policies_text ∧
  c_manifest (load_config
                (config_files (maybe_autosync_current_cache env_changed policies_world).2)
                "policies")
    = Some (build_manifest listing_v2).
Proof.
  destruct (changed_listing_rebuilds_once env_changed policies_world
              (remote_listing env_changed policies_link policies_world).2
              "policies" listing_v2) as [_ H].
  - reflexivity.
  - discriminate.
  - vm_compute. reflexivity.
  - vm_compute. reflexivity.
  - vm_compute. reflexivity.
  - destruct (H policies_text
                (download_and_extract_text env_changed listing_v2
                   (remote_listing env_changed policies_link policies_world).2).2
                policies_text policies_text
                (<["policies" := policies_text]> (index_store policies_world)))
      as (Hok & _ & Hqa & _ & _ & _ & Hm).
    + vm_compute. reflexivity.
    + vm_compute. reflexivity.
    + vm_compute. reflexivity.
    + vm_compute. reflexivity.
    + split; [exact Hok|]. split; [exact Hqa|exact Hm].
Defined.

(** Two manifests built from the same listing compare equal. *)
Lemma manifests_equal_self :
  manifests_equal (build_manifest listing_v1) (build_manifest listing_v1) = true.
Proof.
  apply (proj2 (manifests_equal_iff (build_manifest listing_v1) (build_manifest listing_v1))).
  split; [intros k; reflexivity|reflexivity].
Defined.

(** With the id [A] listed twice the count is 3, the map has 2 entries and
    [A] is bound to the etag of its last occurrence. *)
Lemma duplicate_id_manifest :
  m_count (build_manifest listing_dup) = Some 3 ∧
  ∃ mp, m_map (build_manifest listing_dup) = Some mp ∧
        mp !! VStr "A" = Some (VStr "v2") ∧ size mp ≠ 3.
Proof.
  destruct (build_manifest_count_and_map listing_dup)
    as (Hcount & mp & Hmap & _ & Hlast & _ & Hsize).
  split; [exact Hcount|]. exists mp. split; [exact Hmap|]. split.
  - apply (Hlast [listed_file "A" "v1"; listed_file "B" "v1"] (listed_file "A" "v2") []).
    + reflexivity.
    + constructor.
  - intros Hsz. apply Hsize in Hsz. vm_compute in Hsz.
    apply NoDup_cons in Hsz as [Hnotin _]. apply Hnotin.
    apply list_elem_of_further, list_elem_of_here.
Defined.

(** The remote folder is as it was: nothing happens but the listing. *)
Lemma policies_unchanged :
  (maybe_autosync_current_cache env_unchanged policies_world).1 = Ok tt ∧
  session_qa (maybe_autosync_current_cache env_unchanged policies_world).2
    = Some "old text" ∧
  config_files (maybe_autosync_current_cache env_unchanged policies_world).2
    = config_files policies_world.
Proof.
  destruct (unchanged_listing_no_side_effects env_unchanged policies_world
              (remote_listing env_unchanged policies_link policies_world).2
              "policies" listing_v1) as (Hok & Hqa & _ & Hcfg & _).
  - reflexivity.
  - discriminate.
  - vm_compute. reflexivity.
  - vm_compute. reflexivity.
  - vm_compute. reflexivity.
  - split; [exact Hok|]. split; [exact Hqa|exact Hcfg].
Defined.

(** The token endpoint is down: the failure is caught and the session and
    the config files are as before. *)
Lemma policies_offline :
  (maybe_autosync_current_cache env_offline policies_world).1 = Ok tt ∧
  session_qa (maybe_autosync_current_cache env_offline policies_world).2
    = session_qa policies_world ∧
  config_files (maybe_autosync_current_cache env_offline policies_world).2
    = config_files policies_world.
Proof.
  destruct (failed_sync_before_config_write env_offline policies_world)
    as (Hok & evs & Htrace & Hkeep).
  vm_compute in Htrace. subst evs.
  destruct Hkeep as (Hqa & _ & Hcfg & _).
  - apply Exists_cons_tl, Exists_cons_hd. reflexivity.
  - repeat constructor.
  - split; [exact Hok|]. split; [exact Hqa|exact Hcfg].
Defined.

(** The config write fails after the rebuild: the failure is caught, but
    the engine in memory is no longer the one that was active before. *)
Lemma failed_config_write_replaces_engine :
  ¬ (Exists (fun ev => is_warning ev = true)
       (trace (maybe_autosync_current_cache env_write_refused policies_world).2) →
     session_qa (maybe_autosync_current_cache env_write_refused policies_world).2
       = session_qa policies_world ∧
     config_files (maybe_autosync_current_cache env_write_refused policies_world).2
       = config_files policies_world).
Proof.
  intros Hkept. destruct Hkept as [Hqa _].
  - vm_compute. do 10 apply Exists_cons_tl. apply Exists_cons_hd. reflexivity.
  - vm_compute in Hqa. discriminate Hqa.
Qed.

(** A cache built from an uploaded file is never synchronised; the call
    that synchronises "policies" runs on a SharePoint cache with autosync on
    and a sharing link. *)
Lemma upload_cache_not_synced :
  maybe_autosync_current_cache env_changed upload_world = (Ok tt, upload_world) ∧
  ∃ cache, session_cache policies_world = Some cache ∧ cache ≠ EmptyString ∧
    default VNone (c_type (load_config (config_files policies_world) cache))
      = VStr "sharepoint" ∧
    default false (c_autosync (load_config (config_files policies_world) cache)) = true ∧
    truthy (share_link_of (load_config (config_files policies_world) cache)) = true.
Proof.
  split.
  - apply (proj2 (autosync_only_when_enabled env_changed upload_world) "handbook").
    + reflexivity.
    + left. vm_compute. discriminate.
  - apply (proj1 (autosync_only_when_enabled env_changed policies_world)).
    vm_compute. discriminate.
Defined.

(** The file [A] of the folder is listed with its eTag; a file without an
    eTag with the first 32 characters of its download URL; a file with
    neither with the empty string. *)
Lemma remote_file_etag :
  (∃ d, walk (remote_file "A" "v2") [] policies_world
          = (Ok ([] ++ [d]), policies_world) ∧
        get "etag" d = VStr "v2") ∧
  (∃ d, walk (Item json_no_etag true false VNone (Ok None) (Ok [])) [] policies_world
          = (Ok ([] ++ [d]), policies_world) ∧
        get "etag" d = VStr "https://dl/C?tempauth=0123456789") ∧
  (∃ d, walk (Item json_bare true false VNone (Ok None) (Ok [])) [] policies_world
          = (Ok ([] ++ [d]), policies_world) ∧
        get "etag" d = VStr EmptyString).
Proof.
  split; [|split].
  - unfold remote_file.
    destruct (file_item_etag
                (list_to_map [("id", VStr "A"); ("name", VStr ("A" ++ ".pdf"));
                              ("eTag", VStr "v2");
                              (download_url_key, VStr ("https://dl/" ++ "A"))])
                false (VStr "drive") (Ok None) (Ok []) [] policies_world)
      as (Hetag & _ & _).
    destruct Hetag as (d & Hwalk & Hd).
    + vm_compute. reflexivity.
    + exists d. split; [exact Hwalk|]. rewrite Hd. vm_compute. reflexivity.
  - destruct (file_item_etag json_no_etag false VNone (Ok None) (Ok []) []
                policies_world) as (_ & Hurl & _).
    destruct (Hurl eq_refl long_url) as (d & Hwalk & Hd & _).
    + vm_compute. reflexivity.
    + exists d. split; [exact Hwalk|]. rewrite Hd. vm_compute. reflexivity.
  - destruct (file_item_etag json_bare false VNone (Ok None) (Ok []) []
                policies_world) as (_ & _ & Hnone).
    destruct (Hnone eq_refl) as (d & Hwalk & Hd).
    + vm_compute. reflexivity.
    + exists d. split; [exact Hwalk|exact Hd].
Defined.

(** Listing [B] before [A] gives an equal manifest. *)
Lemma swapped_listing_equal :
  manifests_equal (build_manifest listing_v2)
                  (build_manifest [listed_file "B" "v1"; listed_file "A" "v2"]) = true.
Proof.
  apply permuted_listings_compare_equal.
  - vm_compute. apply NoDup_cons. split.
    + intros Hin. apply list_elem_of_singleton in Hin. discriminate Hin.
    + apply NoDup_singleton.
  - apply perm_swap.
Defined.

(** The entry without a download URL is passed over; when the download of
    [B] is refused the call raises that error after requesting [A] and [B]. *)
Lemma link_entry_skipped :
  (download_and_extract_text env_changed listing_with_link policies_world).1
    = Ok policies_text ∧
  (download_and_extract_text env_download_fails listing_with_link policies_world).1
    = Raise (HTTPError "404").
Proof.
  split.
  - destruct (download_and_extract_text_spec env_changed listing_with_link policies_world)
      as (_ & Hok & _).
    destruct (Hok ["https://dl/A"; "https://dl/B"]) as [Hres _].
    + vm_compute. constructor; [reflexivity|]. constructor; [reflexivity|]. constructor.
    + exact Hres.
  - destruct (download_and_extract_text_spec env_download_fails listing_with_link
                policies_world) as (_ & _ & Habort).
    destruct (Habort [listed_file "A" "v2"] (listed_file "B" "v1") []
                (HTTPError "404")) as [Hres _].
    + vm_compute. reflexivity.
    + constructor; [vm_compute; reflexivity|constructor].
    + vm_compute. reflexivity.
    + exact Hres.
Defined.

(** Renaming and resizing both files is not a change, and the call that
    finds them renamed on the remote side only lists the folder. *)
Lemma renamed_listing_equal :
  manifests_equal (build_manifest listing_v1) (build_manifest listing_renamed) = true ∧
  maybe_autosync_current_cache env_renamed policies_world
    = (Ok tt, (remote_listing env_renamed policies_link policies_world).2).
Proof.
  split.
  - destruct (proj2 (metadata_changes_not_detected env_unchanged)
                listing_v1 listing_renamed) as [Heq _].
    + constructor; [split; vm_compute; reflexivity|].
      constructor; [split; vm_compute; reflexivity|]. constructor.
    + exact Heq.
  - destruct (proj2 (metadata_changes_not_detected env_renamed)
                listing_v1 listing_of_renamed) as [_ Hrun].
    + constructor; [split; vm_compute; reflexivity|].
      constructor; [split; vm_compute; reflexivity|]. constructor.
    + destruct (Hrun policies_world
                  (remote_listing env_renamed policies_link policies_world).2
                  "policies") as [Hsame _].
      * reflexivity.
      * discriminate.
      * vm_compute. reflexivity.
      * vm_compute. reflexivity.
      * vm_compute. reflexivity.
      * exact Hsame.
Defined.

(** * Further properties of the code *)

(** ** Manifests *)

Section ManifestMore.

Implicit Types (f g h : gmap string value) (files pre post : list (gmap string value)).

(** The map of a concatenation: the later part overrides the earlier one. *)
Lemma id_etag_map_app files1 files2 :
  id_etag_map (files1 ++ files2) = id_etag_map files2 ∪ id_etag_map files1.
Proof.
  rewrite !id_etag_map_list_to_map, fmap_app, reverse_app.
  apply list_to_map_app.
Qed.

Lemma id_etag_map_singleton f :
  id_etag_map [f] = {[get "id" f := get "etag" f]}.
Proof. reflexivity. Qed.

Lemma id_etag_map_lookup_Some files k :
  is_Some (id_etag_map files !! k) ↔ Exists (fun h => get "id" h = k) files.
Proof.
  rewrite <- not_eq_None_Some, id_etag_map_lookup_None.
  rewrite Exists_exists. split.
  - intros Hin. destruct (decide (k ∈ get "id" <$> files)) as [Hk|]; [|done].
    apply list_elem_of_fmap in Hk as (h & -> & Hh). eauto.
  - intros (h & Hh & <-) Hnot. apply Hnot. apply list_elem_of_fmap. eauto.
Qed.

(** Replacing a file by one with the same id changes the manifest, as the
    comparison sees it, exactly when no later file of the listing has that
    id: a changed etag is then detected, while a change to a file that is
    shadowed by a later duplicate of its id goes unnoticed. *)
Theorem etag_change_detection pre f g post :
  get "id" g = get "id" f →
  (Forall (fun h => get "id" h ≠ get "id" f) post →
   get "etag" g ≠ get "etag" f →
   manifests_equal (build_manifest (pre ++ f :: post))
                   (build_manifest (pre ++ g :: post)) = false) ∧
  (Exists (fun h => get "id" h = get "id" f) post →
   manifests_equal (build_manifest (pre ++ f :: post))
                   (build_manifest (pre ++ g :: post)) = true).
Proof.
  intros Hid. split.
  - intros Hpost Hetag. apply not_true_is_false. intros Heq.
    apply manifests_equal_spec in Heq as [Hmap _]. simpl in Hmap.
    injection Hmap as Hmap.
    assert (Hf := id_etag_map_last_wins pre f post Hpost).
    assert (Hg : id_etag_map (pre ++ g :: post) !! get "id" g = Some (get "etag" g)).
    { apply id_etag_map_last_wins. by rewrite Hid. }
    rewrite <- Hmap, Hid, Hf in Hg. congruence.
  - intros Hshadow. apply manifests_equal_spec. simpl. split; f_equal.
    + rewrite !(id_etag_map_app pre).
      rewrite (id_etag_map_app [f] post : id_etag_map (f :: post) = _).
      rewrite (id_etag_map_app [g] post : id_etag_map (g :: post) = _).
      rewrite !id_etag_map_singleton, Hid.
      apply id_etag_map_lookup_Some in Hshadow as [e He].
      apply map_eq. intros k. rewrite !lookup_union.
      destruct (decide (k = get "id" f)) as [->|Hk].
      * rewrite He. by rewrite !union_Some_l.
      * by rewrite !lookup_singleton_ne.
    + by rewrite !length_app.
Qed.

Lemma reduced_get f k :
  k ∈ ["id"; "name"; "etag"; "size"; "lastModifiedDateTime"] →
  get k (reduced f) = get k f.
Proof.
  intros Hk. repeat (apply elem_of_cons in Hk as [->|Hk]; [reflexivity|]).
  by apply elem_of_nil in Hk.
Qed.

Lemma reduced_idemp f : reduced (reduced f) = reduced f.
Proof.
  unfold reduced at 1.
  rewrite !reduced_get; [done|repeat constructor..].
Qed.

(** The entries kept in the ["files"] list of a manifest, one per listed
    file, have exactly the five keys [id], [name], [etag], [size] and
    [lastModifiedDateTime], so never a download URL; and the manifest built
    from these entries is the manifest itself. *)
Theorem persisted_entries files :
  ∃ entries, m_files (build_manifest files) = Some entries ∧
    length entries = length files ∧
    Forall (fun r => dom r = ({[ "id"; "name"; "etag"; "size";
                                 "lastModifiedDateTime" ]} : gset string) ∧
                     r !! "downloadUrl" = None) entries ∧
    build_manifest entries = build_manifest files.
Proof.
  exists (reduced <$> files). split; [done|]. split; [by rewrite length_fmap|]. split.
  - apply Forall_fmap, Forall_true. intros f. split; [|reflexivity].
    unfold reduced. rewrite dom_list_to_map_L. simpl. set_solver.
  - unfold build_manifest. f_equal.
    + f_equal. rewrite <- list_fmap_compose. apply list_fmap_ext.
      intros _ f _. apply reduced_idemp.
    + f_equal. apply id_etag_map_ext. rewrite <- list_fmap_compose.
      apply list_fmap_ext. intros _ f _. unfold id_etag. simpl.
      by rewrite !reduced_get by (repeat constructor).
    + by rewrite length_fmap.
Qed.

End ManifestMore.

(** ** Remote traversal *)

Section TraversalMore.

Context {QA VS Store : Type}.

Abbreviation world := (world QA Store).
Abbreviation M := (M QA Store).

Lemma add_trace_2 evs1 evs2 (w : world) :
  add_trace evs2 (add_trace evs1 w) = add_trace (evs1 ++ evs2) w.
Proof. unfold add_trace. simpl. by rewrite app_assoc. Qed.

Lemma add_trace_0 (w : world) : w = add_trace [] w.
Proof. destruct w. unfold add_trace. simpl. by rewrite app_nil_r. Qed.

#[local] Arguments walk_children : simpl never.

Lemma walk_folder j drive lookup children (results : list (gmap string value)) :
  walk (QA:=QA) (Store:=Store) (Item j false true drive lookup children) results =
  (let* drive_id := (if negb (truthy drive)
                     then drive_id_from_item (get "id" j) lookup
                     else ret drive) in
   emit (EvChildren drive_id (get "id" j)) ;;;
   let* cs := lift children in
   walk_children cs results).
Proof. reflexivity. Qed.

Lemma walk_children_cons c cs (results : list (gmap string value)) :
  walk_children (QA:=QA) (Store:=Store) (c :: cs) results =
  (let* results' := walk c results in walk_children cs results').
Proof. reflexivity. Qed.

(** The drive id of a folder: the one it carries, or a lookup. *)
Lemma drive_step_run j drive lookup :
  let step : M value := if negb (truthy drive)
                        then drive_id_from_item (get "id" j) lookup
                        else ret drive in
  (truthy drive || is_ok lookup = true →
     ∃ d evs, (∀ w : world, step w = (Ok d, add_trace evs w)) ∧
       List.filter is_children_request evs = [] ∧
       length (List.filter is_drive_lookup evs) = (if truthy drive then 0 else 1) ∧
       Forall (fun ev => is_children_request ev || is_drive_lookup ev = true) evs) ∧
  (truthy drive || is_ok lookup = false →
     ∃ e evs, ∀ w : world, step w = (Raise e, add_trace evs w)).
Proof.
  simpl. destruct (truthy drive); simpl.
  - split; [|done]. intros _. exists drive, []. split_and!; try done.
    intros w. unfold ret. by rewrite <- add_trace_0.
  - unfold drive_id_from_item, bind, emit, lift, ret.
    destruct lookup as [found|e]; simpl.
    + split; [|done]. intros _. eexists _, [_]. split_and!; try done.
      by repeat constructor.
    + split; [done|]. intros _. by eexists e, [_].
Qed.

(** The loop over the children of a folder. *)
Lemma walk_children_run (cs : list item) :
  Forall (fun c => (traversable c = true → walk_succeeds (QA:=QA) (Store:=Store) c) ∧
                   (traversable c = false → walk_raises (QA:=QA) (Store:=Store) c)) cs →
  (forallb traversable cs = true →
     ∃ ds evs,
       (∀ (results : list (gmap string value)) (w : world),
           walk_children cs results w = (Ok (results ++ ds), add_trace evs w)) ∧
       Forall2 leaf_descriptor (flat_map leaf_items cs) ds ∧
       length (List.filter is_children_request evs) = list_sum (List.map folders cs) ∧
       length (List.filter is_drive_lookup evs)
         = list_sum (List.map folders_without_drive cs) ∧
       Forall (fun ev => is_children_request ev || is_drive_lookup ev = true) evs) ∧
  (forallb traversable cs = false →
     ∃ e evs, ∀ (results : list (gmap string value)) (w : world),
       walk_children cs results w = (Raise e, add_trace evs w)).
Proof.
  induction 1 as [|c cs [Hc_ok Hc_bad] _ [IHok IHbad]].
  - split; [|done]. intros _. exists [], []. split_and!; try done.
    intros results w. simpl. rewrite app_nil_r. unfold ret. by rewrite <- add_trace_0.
  - simpl. destruct (traversable c) eqn:Hc; simpl.
    + destruct (Hc_ok eq_refl) as (ds1 & evs1 & Hrun1 & Hds1 & Hn1 & Hl1 & Hk1).
      split.
      * intros Hcs.
        destruct (IHok Hcs) as (ds2 & evs2 & Hrun2 & Hds2 & Hn2 & Hl2 & Hk2).
        exists (ds1 ++ ds2), (evs1 ++ evs2). split.
        { intros results w. rewrite walk_children_cons. unfold bind.
          by rewrite Hrun1, Hrun2, add_trace_2, app_assoc. }
        split; [by apply Forall2_app|].
        rewrite !List.filter_app, !length_app.
        split; [lia|]. split; [lia|]. by apply Forall_app.
      * intros Hcs. destruct (IHbad Hcs) as (e & evs2 & Hrun2).
        exists e, (evs1 ++ evs2). intros results w.
        rewrite walk_children_cons. unfold bind.
        by rewrite Hrun1, Hrun2, add_trace_2.
    + split; [done|]. intros _.
      destruct (Hc_bad eq_refl) as (e & evs & Hrun).
      exists e, evs. intros results w. rewrite walk_children_cons. unfold bind.
      by rewrite Hrun.
Qed.

Lemma walk_file_run j is_folder drive lookup children :
  (is_ok (item_etag j) = true →
     walk_succeeds (QA:=QA) (Store:=Store) (Item j true is_folder drive lookup children)) ∧
  (is_ok (item_etag j) = false →
     walk_raises (QA:=QA) (Store:=Store) (Item j true is_folder drive lookup children)).
Proof.
  destruct (item_etag j) as [etag|e] eqn:Hetag; simpl.
  - split; [|done]. intros _. exists [descriptor_of j etag], []. split_and!; try done.
    + intros results w. simpl. unfold bind, lift, ret. by rewrite Hetag, <- add_trace_0.
    + constructor; [|constructor]. by exists etag.
  - split; [done|]. intros _. exists e, []. intros results w. simpl.
    unfold bind, lift. rewrite Hetag. by rewrite <- add_trace_0.
Qed.

Lemma walk_other_run j drive lookup children :
  walk_succeeds (QA:=QA) (Store:=Store) (Item j false false drive lookup children).
Proof.
  exists [], []. split_and!; try done. intros results w. simpl. unfold ret.
  by rewrite app_nil_r, <- add_trace_0.
Qed.

Lemma walk_run it :
  (traversable it = true → walk_succeeds (QA:=QA) (Store:=Store) it) ∧
  (traversable it = false → walk_raises (QA:=QA) (Store:=Store) it).
Proof.
  induction it as [j is_file is_folder drive lookup e
                  |j is_file is_folder drive lookup cs IH] using item_tree_ind.
  - (* the children request fails *)
    destruct is_file; [apply walk_file_run|].
    destruct is_folder; [|split; [intros _; apply walk_other_run|done]].
    simpl. rewrite andb_false_r. split; [done|]. intros _.
    destruct (truthy drive || is_ok lookup) eqn:Hd.
    + destruct (proj1 (drive_step_run j drive lookup) Hd) as (d & evs & Hstep & _).
      exists e, (evs ++ [EvChildren d (get "id" j)]). intros results w.
      rewrite walk_folder. unfold bind at 1. rewrite Hstep.
      unfold bind, emit, lift. simpl. unfold add_trace. simpl. by rewrite <- app_assoc.
    + destruct (proj2 (drive_step_run j drive lookup) Hd) as (e' & evs & Hstep).
      exists e', evs. intros results w. rewrite walk_folder. unfold bind at 1.
      by rewrite Hstep.
  - (* the children request is answered *)
    destruct is_file; [apply walk_file_run|].
    destruct is_folder; [|split; [intros _; apply walk_other_run|done]].
    destruct (walk_children_run cs IH) as [Hloop_ok Hloop_bad]. simpl.
    destruct (truthy drive || is_ok lookup) eqn:Hd; simpl.
    + destruct (proj1 (drive_step_run j drive lookup) Hd)
        as (d & evs & Hstep & Hn0 & Hl0 & Hk0).
      split.
      * intros Hcs.
        destruct (Hloop_ok Hcs) as (ds & evs' & Hrun & Hds & Hn & Hl & Hk).
        exists ds, ((evs ++ [EvChildren d (get "id" j)]) ++ evs'). split.
        { intros results w. rewrite walk_folder. unfold bind at 1. rewrite Hstep.
          unfold bind at 1, emit. simpl. unfold bind at 1, lift.
          etrans; [apply (Hrun results
                            (add_trace [EvChildren d (get "id" j)] (add_trace evs w)))|].
          unfold add_trace. simpl. by rewrite <- !app_assoc. }
        split; [done|].
        rewrite !List.filter_app, !length_app, Hn0, Hn, Hl, Hl0. simpl.
        split; [lia|]. split; [lia|].
        apply Forall_app. split; [|done]. apply Forall_app. split; [done|].
        by repeat constructor.
      * intros Hcs. destruct (Hloop_bad Hcs) as (e & evs' & Hrun).
        exists e, ((evs ++ [EvChildren d (get "id" j)]) ++ evs'). intros results w.
        rewrite walk_folder. unfold bind at 1. rewrite Hstep.
        unfold bind at 1, emit. simpl. unfold bind at 1, lift.
        etrans; [apply (Hrun results
                          (add_trace [EvChildren d (get "id" j)] (add_trace evs w)))|].
        unfold add_trace. simpl. by rewrite <- !app_assoc.
    + split; [done|]. intros _.
      destruct (proj2 (drive_step_run j drive lookup) Hd) as (e' & evs & Hstep).
      exists e', evs. intros results w. rewrite walk_folder. unfold bind at 1.
      by rewrite Hstep.
Qed.

(** The loop changes nothing but the trace, whatever the children do. *)
Lemma walk_children_logs cs (results : list (gmap string value)) (w : world) :
  ∃ evs, (walk_children cs results w).2 = add_trace evs w.
Proof.
  revert results w. induction cs as [|c cs IH]; intros results w.
  - exists []. simpl. apply add_trace_0.
  - rewrite walk_children_cons. unfold bind.
    destruct (walk_logs c results w) as (evs1 & Hw1 & _).
    destruct (walk c results w) as [[r|e] w1]; simpl in Hw1; subst w1.
    + destruct (IH r (add_trace evs1 w)) as (evs2 & ->).
      exists (evs1 ++ evs2). by rewrite add_trace_2.
    + by exists evs1.
Qed.

Lemma collect_run root token (w : world) :
  (traversable root = true ∧
   ∃ ds evs,
     collect_files_recursively_from_item root token w = (Ok ds, add_trace evs w) ∧
     Forall2 leaf_descriptor (leaf_items root) ds ∧
     length (List.filter is_children_request evs) = folders root ∧
     length (List.filter is_drive_lookup evs) = folders_without_drive root ∧
     Forall (fun ev => is_children_request ev || is_drive_lookup ev = true) evs) ∨
  (traversable root = false ∧
   ∃ e evs, collect_files_recursively_from_item root token w = (Raise e, add_trace evs w)).
Proof.
  unfold collect_files_recursively_from_item.
  destruct (traversable root) eqn:Hroot.
  - left. split; [done|].
    destruct (proj1 (walk_run root) Hroot) as (ds & evs & Hrun & Hrest).
    exists ds, evs. by rewrite Hrun.
  - right. split; [done|].
    destruct (proj2 (walk_run root) Hroot) as (e & evs & Hrun).
    exists e, evs. by rewrite Hrun.
Qed.

(** The traversal returns a listing exactly when no request on the way
    fails: one failed children request, drive lookup or etag anywhere in the
    tree makes the whole call raise, with no partial listing. *)
Theorem traversal_all_or_nothing root token (w : world) :
  is_ok (collect_files_recursively_from_item root token w).1 = traversable root.
Proof.
  destruct (collect_run root token w) as [(-> & ds & evs & -> & _)|(-> & e & evs & ->)];
    reflexivity.
Qed.

Lemma item_etag_not_None j etag : item_etag j = Ok etag → etag ≠ VNone.
Proof.
  unfold item_etag. destruct (truthy (get "eTag" j)) eqn:He.
  - intros [= <-] Hnone. by rewrite Hnone in He.
  - destruct (get_or _ _ j); by intros [= <-].
Qed.

(** A listing that is returned has one descriptor per file item of the
    tree, in the order of a depth-first walk; each descriptor carries the
    six keys of its item, with an etag that is never [None]. *)
Theorem traversal_lists_leaves root token (w w' : world) files :
  collect_files_recursively_from_item root token w = (Ok files, w') →
  Forall2 leaf_descriptor (leaf_items root) files ∧
  length files = length (leaf_items root) ∧
  Forall (fun d => get "etag" d ≠ VNone ∧
                   dom d = ({[ "id"; "name"; "etag"; "size"; "lastModifiedDateTime";
                               "downloadUrl" ]} : gset string)) files.
Proof.
  intros Hrun.
  destruct (collect_run root token w) as [(_ & ds & evs & Hrun' & Hds & _)|(_ & e & evs & Hrun')];
    rewrite Hrun in Hrun'; [|done].
  injection Hrun' as -> _. split; [done|]. split; [symmetry; by eapply Forall2_length|].
  clear Hrun. induction Hds as [|j d js ds (etag & Hetag & ->) _ IH]; constructor; [|done].
  split.
  - rewrite descriptor_of_etag. by eapply item_etag_not_None.
  - unfold descriptor_of. rewrite dom_list_to_map_L. simpl. set_solver.
Qed.

(** A traversal that returns has made one children request per folder it
    reached and one drive lookup per folder without a drive id, and no other
    request: file items cost none. *)
Theorem traversal_requests root token (w w' : world) files :
  collect_files_recursively_from_item root token w = (Ok files, w') →
  ∃ evs, w' = add_trace evs w ∧
    length (List.filter is_children_request evs) = folders root ∧
    length (List.filter is_drive_lookup evs) = folders_without_drive root ∧
    Forall (fun ev => is_children_request ev || is_drive_lookup ev = true) evs.
Proof.
  intros Hrun.
  destruct (collect_run root token w)
    as [(_ & ds & evs & Hrun' & _ & Hn & Hl & Hk)|(_ & e & evs & Hrun')];
    rewrite Hrun in Hrun'; [|done].
  injection Hrun' as _ ->. by exists evs.
Qed.

(** [drive_id_from_item] returns the drive id of the answer when it is
    truthy; its fallback reads the same field again, so it never supplies a
    usable id: the result is the empty string when the field is missing and
    the falsy field itself otherwise.  The traversal does not check it: for
    a folder without a drive id it goes on to request the children with
    whatever the lookup returned. *)
Theorem drive_id_fallback_never_helps item_id (found : option value) (w : world) :
  ∃ d, drive_id_from_item item_id (Ok found) w
         = (Ok d, add_trace [EvDriveLookup item_id] w) ∧
       truthy d = truthy (default VNone found) ∧
       (found = None → d = VStr EmptyString) ∧
       (∀ x, found = Some x → d = x) ∧
       ∀ j drive children (results : list (gmap string value)),
         get "id" j = item_id → truthy drive = false →
         ∃ evs, (walk (Item j false true drive (Ok found) children) results w).2
                  = add_trace (EvDriveLookup item_id :: EvChildren d item_id :: evs) w.
Proof.
  assert (Hd : ∃ d, drive_id_from_item item_id (Ok found) w
                      = (Ok d, add_trace [EvDriveLookup item_id] w) ∧
                    truthy d = truthy (default VNone found) ∧
                    (found = None → d = VStr EmptyString) ∧
                    (∀ x, found = Some x → d = x)).
  { unfold drive_id_from_item, bind, emit, lift, ret. simpl.
    destruct found as [x|]; simpl.
    - exists x. destruct (truthy x) eqn:Hx; simpl; rewrite ?Hx; split_and!; try done;
        by intros ? [= <-].
    - exists (VStr EmptyString). split_and!; done. }
  destruct Hd as (d & Hrun & Htruthy & Hnone & Hsome). exists d.
  split_and!; try done.
  intros j drive children results <- Hdrive. rewrite walk_folder.
  unfold bind at 1. rewrite Hdrive. cbn [negb]. rewrite Hrun.
  unfold bind at 1, emit. cbn [fst snd]. unfold bind at 1, lift.
  destruct children as [cs|e].
  - destruct (walk_children_logs cs results
                (add_trace [EvChildren d (get "id" j)]
                   (add_trace [EvDriveLookup (get "id" j)] w)))
      as (evs & Hevs).
    exists evs. etrans; [apply Hevs|]. by rewrite !add_trace_2.
  - exists []. unfold add_trace. simpl. by rewrite <- app_assoc.
Qed.

End TraversalMore.

(** ** Configuration files and the orchestrator *)

Section SyncMore.

Context {QA VS Store : Type}.
Variable E : env QA VS Store.

Abbreviation world := (world QA Store).
Abbreviation M := (M QA Store).
Abbreviation blind := (world_blind (QA:=QA) (Store:=Store)).

Lemma world_blind_ret {A} (a : A) : blind (ret a).
Proof. exists (Ok a), []. intros w. unfold ret. by rewrite add_trace_nil. Qed.







(** *** Configuration files *)


Lemma autosync_disabled_empty : autosync_enabled empty_config = false.
Proof. reflexivity. Qed.

(** A config write that meets a fault raises it.  The other caches read as
    before.  When the fault comes before the file is opened the config files
    are untouched; when it comes during the dump the old configuration is
    lost: the cache reads as [{}], and auto-sync no longer does anything
    for it. *)
Theorem failed_config_write name cfg fault (w : world) :
  fs_fault E name cfg = Some fault →
  ∃ w', write_cache_config E name cfg w = (Raise (fault_exn fault), w') ∧
    (∀ other, other ≠ name →
       load_config (config_files w') other = load_config (config_files w) other) ∧
    match fault with
    | FailBeforeOpen _ => config_files w' = config_files w
    | FailDuringDump _ =>
        load_config (config_files w') name = empty_config ∧
        (session_cache w' = Some name →
         maybe_autosync_current_cache E w' = (Ok tt, w'))
    end.
Proof.
  intros Hfault. unfold write_cache_config, bind, emit, store_config, raise.
  rewrite Hfault. destruct fault as [e|e]; simpl; eexists; (split; [reflexivity|]).
  - simpl. done.
  - simpl. split.
    + intros other Hother. unfold load_config. by rewrite lookup_insert_ne.
    + assert (Hload : load_config (<[name:=Garbled]> (config_files w)) name = empty_config).
      { unfold load_config. by rewrite lookup_insert_eq. }
      split; [done|]. intros Hc.
      apply (maybe_autosync_disabled E) with (cache := name); [exact Hc|].
      simpl. by rewrite Hload.
Qed.

(** *** The orchestrator *)

Lemma listing_frame link r (w w1 : world) :
  remote_listing E link w = (r, w1) → ∃ evs, w1 = add_trace evs w.
Proof.
  intros Hrun. destruct (remote_listing_logs E link w) as (evs & Hw & _).
  rewrite Hrun in Hw. eauto.
Qed.

Lemma download_frame files r (w w1 : world) :
  download_and_extract_text E files w = (r, w1) → ∃ evs, w1 = add_trace evs w.
Proof.
  intros Hrun. destruct (download_and_extract_text_logs E files w) as (evs & Hw & _).
  rewrite Hrun in Hw. eauto.
Qed.

(** What a resync leaves in the session and in the config files. *)
Lemma resync_outcome_state cache cfg files (w1 w2 : world) r :
  resync_outcome E cache cfg files w1 r w2 →
  (session_qa w2 = session_qa w1 ∧ session_cache w2 = session_cache w1 ∧
   config_files w2 = config_files w1) ∨
  (∃ text qa vs,
     build_qa_engine E text cache = Ok (qa, vs) ∧
     save_vectorstore E vs cache (index_store w1) = (Ok tt, index_store w2) ∧
     session_qa w2 = Some qa ∧ session_cache w2 = Some cache ∧
     (config_files w2 = config_files w1 ∨
      config_files w2 = <[cache := Garbled]> (config_files w1) ∨
      config_files w2
        = <[cache := Valid (set_manifest (build_manifest files) cfg)]> (config_files w1))).
Proof.
  intros Hout.
  inversion Hout as [e w2' H1|text w2' e H1 H2|text w2' qa vs e st H1 H2 H3
                    |text w2' qa vs st fault H1 H2 H3 H4|text w2' qa vs st H1 H2 H3 H4];
    subst; destruct (download_frame _ _ _ _ H1) as [dls ->]; simpl in *.
  - by left.
  - by left.
  - by left.
  - right. exists text, qa, vs. split_and!; try done. destruct fault; simpl; auto.
  - right. exists text, qa, vs. split_and!; try done. auto.
Qed.

(** With no credentials in the environment the attempt ends at once: no
    request is made, a warning is shown and nothing else changes. *)
Theorem sync_without_credentials (w : world) cache :
  session_cache w = Some cache → cache ≠ EmptyString →
  autosync_enabled (load_config (config_files w) cache) = true →
  credentials_set E = false →
  maybe_autosync_current_cache E w
    = (Ok tt, add_trace [EvWarning (RuntimeError "SharePoint credentials not set in .env.")] w).
Proof.
  intros Hc Hne Hon Hcred. rewrite (maybe_autosync_enabled E w cache) by done.
  unfold try_except, bind at 1, remote_listing, bind at 1, get_graph_token.
  by rewrite Hcred.
Qed.

(** Auto-sync never switches the active cache and never touches the config
    file of any other cache. *)
Theorem autosync_stays_on_active_cache (w : world) :
  session_cache (maybe_autosync_current_cache E w).2 = session_cache w ∧
  ∀ name, session_cache w ≠ Some name →
    config_files (maybe_autosync_current_cache E w).2 !! name = config_files w !! name.
Proof.
  destruct (maybe_autosync_outcome E w) as [_ Hout].
  remember (maybe_autosync_current_cache E w).2 as w' eqn:Hw'. clear Hw'.
  destruct Hout as [Hoff|cache e w1 Hact Hl|cache files w1 Hact Hl Hsm
                   |cache files w1 e w2 Hact Hl Hdiff Hre
                   |cache files w1 w2 Hact Hl Hdiff Hre];
    try (destruct (listing_frame _ _ _ _ Hl) as [evs ->]); try done.
  - destruct Hact as (Hc & _).
    destruct (resync_outcome_state _ _ _ _ _ _ Hre)
      as [(_ & Hc' & Hf)|(text & qa & vs & _ & _ & _ & Hc' & Hf)]; simpl in *.
    + by rewrite Hc', Hf.
    + split; [congruence|]. intros name Hname.
      destruct Hf as [->|[->| ->]]; [done|apply lookup_insert_ne; congruence..].
  - destruct Hact as (Hc & _).
    destruct (resync_outcome_state _ _ _ _ _ _ Hre)
      as [(_ & Hc' & Hf)|(text & qa & vs & _ & _ & _ & Hc' & Hf)]; simpl in *.
    + by rewrite Hc', Hf.
    + split; [congruence|]. intros name Hname.
      destruct Hf as [->|[->| ->]]; [done|apply lookup_insert_ne; congruence..].
Qed.

(** The engine in memory is replaced only by a call that has built a new
    one for the active cache and saved its index. *)
Theorem engine_replaced_after_index_saved (w : world) :
  session_qa (maybe_autosync_current_cache E w).2 ≠ session_qa w →
  ∃ cache text qa vs,
    session_cache w = Some cache ∧
    build_qa_engine E text cache = Ok (qa, vs) ∧
    save_vectorstore E vs cache (index_store w)
      = (Ok tt, index_store (maybe_autosync_current_cache E w).2) ∧
    session_qa (maybe_autosync_current_cache E w).2 = Some qa.
Proof.
  destruct (maybe_autosync_outcome E w) as [_ Hout].
  remember (maybe_autosync_current_cache E w).2 as w' eqn:Hw'. clear Hw'.
  intros Hchg.
  destruct Hout as [Hoff|cache e w1 Hact Hl|cache files w1 Hact Hl Hsm
                   |cache files w1 e w2 Hact Hl Hdiff Hre
                   |cache files w1 w2 Hact Hl Hdiff Hre];
    try (destruct (listing_frame _ _ _ _ Hl) as [evs ->]); try done.
  - destruct Hact as (Hc & _).
    destruct (resync_outcome_state _ _ _ _ _ _ Hre)
      as [(Hq & _)|(text & qa & vs & Hb & Hs & Hq & _)]; simpl in *; [done|].
    by exists cache, text, qa, vs.
  - destruct Hact as (Hc & _).
    destruct (resync_outcome_state _ _ _ _ _ _ Hre)
      as [(Hq & _)|(text & qa & vs & Hb & Hs & Hq & _)]; simpl in *; [done|].
    by exists cache, text, qa, vs.
Qed.


(** A config file of the active cache that auto-sync has written holds the
    configuration that was there before, with only the manifest replaced by
    the one built from the remote listing: type, source, sharing link and
    the autosync flag are kept. *)
Theorem synced_config_differs_in_manifest (w : world) cache cfg' :
  session_cache w = Some cache →
  config_files (maybe_autosync_current_cache E w).2 !! cache = Some (Valid cfg') →
  config_files w !! cache ≠ Some (Valid cfg') →
  c_type cfg' = c_type (load_config (config_files w) cache) ∧
  c_source cfg' = c_source (load_config (config_files w) cache) ∧
  c_sharepoint cfg' = c_sharepoint (load_config (config_files w) cache) ∧
  c_autosync cfg' = c_autosync (load_config (config_files w) cache) ∧
  ∃ files w1,
    remote_listing E (share_link_of (load_config (config_files w) cache)) w
      = (Ok files, w1) ∧
    c_manifest cfg' = Some (build_manifest files).
Proof.
  destruct (maybe_autosync_outcome E w) as [_ Hout].
  remember (maybe_autosync_current_cache E w).2 as w' eqn:Hw'. clear Hw'.
  intros Hc Hnew Hold.
  assert (Hcase : ∀ cache0 files w1 w2 r,
            sync_active w cache0 →
            remote_listing E (share_link_of (load_config (config_files w) cache0)) w
              = (Ok files, w1) →
            resync_outcome E cache0 (load_config (config_files w) cache0) files w1 r w2 →
            config_files w2 !! cache = Some (Valid cfg') →
            cfg' = set_manifest (build_manifest files) (load_config (config_files w) cache)).
  { intros cache0 files w1 w2 r (Hc0 & _) Hl Hre Hlook.
    assert (cache0 = cache) as -> by congruence.
    destruct (listing_frame _ _ _ _ Hl) as [evs ->].
    destruct (resync_outcome_state _ _ _ _ _ _ Hre)
      as [(_ & _ & Hf)|(text & qa & vs & _ & _ & _ & _ & [Hf|[Hf|Hf]])];
      simpl in Hf; rewrite Hf in Hlook.
    - done.
    - done.
    - by rewrite lookup_insert_eq in Hlook.
    - rewrite lookup_insert_eq in Hlook. congruence. }
  destruct Hout as [Hoff|cache0 e w1 Hact Hl|cache0 files w1 Hact Hl Hsm
                   |cache0 files w1 e w2 Hact Hl Hdiff Hre
                   |cache0 files w1 w2 Hact Hl Hdiff Hre];
    try (destruct (listing_frame _ _ _ _ Hl) as [evs ->]; done); try done.
  - assert (cache0 = cache) as -> by (destruct Hact; congruence).
    rewrite (Hcase _ _ _ _ _ Hact Hl Hre Hnew). split_and!; try done. eauto.
  - assert (cache0 = cache) as -> by (destruct Hact; congruence).
    rewrite (Hcase _ _ _ _ _ Hact Hl Hre Hnew). split_and!; try done. eauto.
Qed.




End SyncMore.

(** ** Loading a cache, the header and the chat page *)

Section PagesMore.

Context {QA VS Store : Type}.
Variable E : env QA VS Store.
Variable U : page_env QA VS Store.

Abbreviation world := (world QA Store).
Abbreviation M := (M QA Store).
Abbreviation page_state := (page_state QA Store).
Abbreviation P := (P QA Store).

(** [load_cache_into_memory] either fails and leaves the world as it was,
    or replaces the engine and the active cache; it never raises and never
    touches the disk. *)
Lemma load_cache_cases name (w : world) :
  load_cache_into_memory U name w = (Ok false, w) ∨
  ∃ vs qa,
    load_vectorstore U name (index_store w) = Ok (Some vs) ∧
    build_qa_engine_from U vs = Ok qa ∧
    load_cache_into_memory U name w
      = (Ok true, World (Some qa) (Some name) (config_files w) (index_store w) (trace w)).
Proof.
  unfold load_cache_into_memory, try_except, bind, read_index_store, lift, set_session, ret.
  destruct (load_vectorstore U name (index_store w)) as [[vs|]|e] eqn:Hload; auto.
  destruct (build_qa_engine_from U vs) as [qa|e] eqn:Hbuild; auto.
  right. by exists vs, qa.
Qed.

(** The two ways a run of the header ends. *)
Lemma render_header_cases selected settings_clicked (s : page_state) :
  render_header U selected settings_clicked s
    = (if settings_clicked then Stop Rerun else Go tt,
       PageState (ps_world s) (ps_chat_history s)
         (if settings_clicked then "settings" else ps_page s)
         (ps_authorized_settings s)) ∨
  (∃ vs qa,
     selected ≠ EmptyString ∧ selected ≠ placeholder ∧
     session_cache (ps_world s) ≠ Some selected ∧
     load_vectorstore U selected (index_store (ps_world s)) = Ok (Some vs) ∧
     build_qa_engine_from U vs = Ok qa ∧
     render_header U selected settings_clicked s
       = (Stop Rerun,
          PageState
            (World (Some qa) (Some selected) (config_files (ps_world s))
                   (index_store (ps_world s)) (trace (ps_world s)))
            [] (ps_page s) (ps_authorized_settings s))).
Proof.
  remember (render_header U selected settings_clicked s) as out eqn:Hout.
  unfold render_header, bindP at 1, get_state in Hout.
  destruct (String.eqb_spec selected EmptyString) as [->|Hne]; simpl in Hout.
  { left. subst out. destruct settings_clicked; destruct s; reflexivity. }
  destruct (String.eqb_spec selected placeholder) as [->|Hnp]; simpl in Hout.
  { left. subst out. destruct settings_clicked; destruct s; reflexivity. }
  destruct (decide (Some selected = session_cache (ps_world s))) as [Hsame|Hdiff].
  { rewrite bool_decide_eq_true_2 in Hout by done. simpl in Hout.
    left. subst out. destruct settings_clicked; destruct s; reflexivity. }
  rewrite bool_decide_eq_false_2 in Hout by done. simpl in Hout.
  unfold bindP at 1 2, in_world in Hout.
  destruct (load_cache_cases selected (ps_world s)) as [Hl|(vs & qa & Hl & Hb & Hrun)];
    rewrite ?Hl, ?Hrun in Hout; simpl in Hout.
  - left. subst out. destruct settings_clicked; destruct s; reflexivity.
  - right. exists vs, qa. split_and!; done.
Qed.

(** The header never touches the disk, the trace or the authorization, and
    never ends in an uncaught exception.  It changes the active cache only
    when the select box names a cache other than the active one and that
    cache loads: the chat history is then emptied and the script rerun.
    Otherwise the world and the chat history are as before (a cache that
    fails to load leaves the previous one active) and the script goes on,
    unless the settings button was pressed. *)
Theorem header_cache_switch selected settings_clicked (s : page_state) :
  ∃ f s',
    render_header U selected settings_clicked s = (f, s') ∧
    config_files (ps_world s') = config_files (ps_world s) ∧
    index_store (ps_world s') = index_store (ps_world s) ∧
    trace (ps_world s') = trace (ps_world s) ∧
    ps_authorized_settings s' = ps_authorized_settings s ∧
    (∀ e, f ≠ Stop (Crashed e)) ∧
    (session_cache (ps_world s') ≠ session_cache (ps_world s) →
       selected ≠ EmptyString ∧ selected ≠ placeholder ∧
       session_cache (ps_world s') = Some selected ∧
       ps_chat_history s' = [] ∧ f = Stop Rerun ∧
       ∃ vs qa,
         load_vectorstore U selected (index_store (ps_world s)) = Ok (Some vs) ∧
         build_qa_engine_from U vs = Ok qa ∧
         session_qa (ps_world s') = Some qa) ∧
    (session_cache (ps_world s') = session_cache (ps_world s) →
       ps_world s' = ps_world s ∧ ps_chat_history s' = ps_chat_history s ∧
       f = if settings_clicked then Stop Rerun else Go tt).
Proof.
  destruct (render_header_cases selected settings_clicked s)
    as [->|(vs & qa & Hne & Hnp & Hdiff & Hvs & Hqa & ->)].
  - eexists _, _. split; [reflexivity|]. simpl. split_and!; try done.
    by destruct settings_clicked.
  - eexists _, _. split; [reflexivity|]. simpl. split_and!; try done.
    intros _. split_and!; try done. by exists vs, qa.
Qed.

(** A run of the chat page never ends in an uncaught exception.  When it
    asks for a rerun (cache switched or settings button) no sync was
    attempted and no query answered.  Otherwise the chat history is as
    before or has one more entry at its end: the non-empty query of this
    run, answered by the engine that is in memory after the sync check. *)
Theorem chat_page_history selected settings_clicked user_query (s : page_state) :
  ∃ f s',
    page_chat E U selected settings_clicked user_query s = (f, s') ∧
    (∀ e, f ≠ Stop (Crashed e)) ∧
    (f = Stop Rerun →
       trace (ps_world s') = trace (ps_world s) ∧
       (ps_chat_history s' = [] ∨ ps_chat_history s' = ps_chat_history s)) ∧
    (f ≠ Stop Rerun →
       ps_chat_history s' = ps_chat_history s ∨
       ∃ q qa ans,
         user_query = Some q ∧ q ≠ EmptyString ∧
         session_qa (ps_world s') = Some qa ∧
         run_qa U qa q = Ok ans ∧
         ps_chat_history s' = ps_chat_history s ++ [entry_of q ans]).
Proof.
  unfold page_chat, bindP at 1.
  destruct (render_header_cases selected settings_clicked s)
    as [->|(vs & qa & _ & _ & _ & _ & _ & ->)].
  2:{ eexists _, _. split; [reflexivity|]. simpl. split_and!; try done. auto. }
  destruct settings_clicked.
  { eexists _, _. split; [reflexivity|]. simpl. split_and!; try done. auto. }
  unfold bindP at 1, in_world. cbn [ps_world].
  destruct (maybe_autosync_outcome E (ps_world s)) as [Hok _].
  destruct (maybe_autosync_current_cache E (ps_world s)) as [r w2]. simpl in Hok.
  subst r. unfold bindP at 1, get_state. cbn [ps_world ps_chat_history].
  destruct (session_qa w2) as [qa|] eqn:Hqa.
  2:{ eexists _, _. split; [reflexivity|]. simpl. split_and!; try done. auto. }
  destruct user_query as [q|].
  2:{ eexists _, _. split; [reflexivity|]. simpl. split_and!; try done. auto. }
  destruct (String.eqb_spec q EmptyString) as [->|Hq].
  { eexists _, _. split; [reflexivity|]. simpl. split_and!; try done. auto. }
  destruct (run_qa U qa q) as [ans|e] eqn:Hrun.
  - eexists _, _. split; [reflexivity|]. simpl. split_and!; try done.
    intros _. right. by exists q, qa, ans.
  - eexists _, _. split; [reflexivity|]. simpl. split_and!; try done. auto.
Qed.

(** ** Settings handlers *)

(** Rebuild, save, then write the configuration: where it can stop. *)
Lemma rebuild_then_write name text cfg (w : world) :
  (∃ e evs,
     (rebuild_vectorstore_and_save E name text ;;; write_cache_config E name cfg) w
       = (Raise e, World (session_qa w) (session_cache w) (config_files w)
                         (index_store (rebuild_vectorstore_and_save E name text w).2)
                         (trace w ++ evs)) ∧
     Forall (fun ev => is_write_config ev = false) evs ∧
     ∀ qa vs, build_qa_engine E text name = Ok (qa, vs) →
              (save_vectorstore E vs name (index_store w)).1 ≠ Ok tt) ∨
  (∃ qa vs store',
     build_qa_engine E text name = Ok (qa, vs) ∧
     save_vectorstore E vs name (index_store w) = (Ok tt, store') ∧
     (rebuild_vectorstore_and_save E name text ;;; write_cache_config E name cfg) w
       = (match fs_fault E name cfg with
          | None => Ok tt
          | Some fault => Raise (fault_exn fault)
          end,
          World (Some qa) (Some name)
            (match fs_fault E name cfg with
             | None => <[name := Valid cfg]> (config_files w)
             | Some fault => files_after_fault fault name (config_files w)
             end)
            store'
            (trace w ++ [EvBuild name text; EvSaveIndex name; EvWriteConfig name cfg]))).
Proof.
  unfold rebuild_vectorstore_and_save, write_cache_config, call_save_vectorstore,
    set_session, store_config, raise, bind, emit, lift. simpl.
  destruct (build_qa_engine E text name) as [[qa vs]|e] eqn:Hbuild; simpl.
  - destruct (save_vectorstore E vs name (index_store w)) as [[[]|e] store'] eqn:Hsave;
      simpl.
    + right. exists qa, vs, store'. split; [done|]. split; [done|].
      destruct (fs_fault E name cfg) as [[e|e]|]; simpl; by rewrite <- !app_assoc.
    + left. exists e, [EvBuild name text; EvSaveIndex name]. rewrite <- app_assoc.
      split; [done|]. split; [by repeat constructor|].
      intros qa' vs' [= <- <-]. by rewrite Hsave.
  - left. exists e, [EvBuild name text]. split; [done|].
    split; [by repeat constructor|]. done.
Qed.

Lemma load_sharepoint_guarded sp_link name autosync (w : world) :
  sp_link = EmptyString ∨ name = EmptyString ∨ credentials_set E = false →
  load_sharepoint E sp_link name autosync w = (Ok tt, w).
Proof.
  unfold load_sharepoint. intros [->|[->|Hcred]].
  - reflexivity.
  - by rewrite orb_true_r.
  - rewrite Hcred. by destruct (_ || _).
Qed.

Lemma load_sharepoint_attempt sp_link name autosync (w : world) :
  sp_link ≠ EmptyString → name ≠ EmptyString → credentials_set E = true →
  load_sharepoint E sp_link name autosync w =
    try_except
      (let* files := remote_listing E (VStr sp_link) in
       let* text := download_and_extract_text E files in
       rebuild_vectorstore_and_save E name text ;;;
       write_cache_config E name (sharepoint_config sp_link autosync (build_manifest files)))
      (fun _ => ret tt) w.
Proof.
  intros Hl%String.eqb_neq Hn%String.eqb_neq Hcred. unfold load_sharepoint.
  rewrite Hl, Hn, Hcred. simpl.
  unfold try_except, remote_listing, bind.
  destruct (get_graph_token E w) as [[token|e] w1]; [|done].
  destruct (share_link_to_drive_item_meta E _ token w1) as [[root|e] w2]; [|done].
  destruct (collect_files_recursively_from_item root token w2) as [[files|e] w3]; done.
Qed.




(** The SharePoint handler catches every failure.  Without a link, a cache
    name or credentials it does nothing, not even a request.  Otherwise it
    touches the session and the config files only after the index of the
    new cache has been saved, and never the config file of another cache. *)
Theorem sharepoint_creation_is_guarded sp_link name autosync (w : world) :
  ∃ w',
    load_sharepoint E sp_link name autosync w = (Ok tt, w') ∧
    (sp_link = EmptyString ∨ name = EmptyString ∨ credentials_set E = false → w' = w) ∧
    (session_qa w' ≠ session_qa w ∨ session_cache w' ≠ session_cache w ∨
     config_files w' ≠ config_files w →
       ∃ text qa vs,
         build_qa_engine E text name = Ok (qa, vs) ∧
         save_vectorstore E vs name (index_store w) = (Ok tt, index_store w')) ∧
    (∀ other, other ≠ name → config_files w' !! other = config_files w !! other).
Proof.
  destruct (decide (sp_link = EmptyString ∨ name = EmptyString ∨ credentials_set E = false))
    as [Hguard|Hgo].
  { exists w. rewrite load_sharepoint_guarded by done. split_and!; try done.
    intros [?|[?|?]]; done. }
  assert (sp_link ≠ EmptyString ∧ name ≠ EmptyString ∧ credentials_set E = true)
    as (Hl & Hn & Hcred).
  { split_and!; [intros ->; auto..|]. destruct (credentials_set E); auto. }
  rewrite load_sharepoint_attempt by done.
  unfold try_except, bind at 1.
  destruct (remote_listing E (VStr sp_link) w) as [[files|e] w1] eqn:Hlist;
    destruct (listing_frame E _ _ _ _ Hlist) as [reads ->].
  2:{ eexists. split; [reflexivity|]. simpl. split_and!; try done.
      intros [?|[?|?]]; done. }
  unfold bind at 1.
  destruct (download_and_extract_text E files (add_trace reads w)) as [[text|e] w2] eqn:Hdl;
    destruct (download_frame E _ _ _ _ Hdl) as [dls ->].
  2:{ eexists. split; [reflexivity|]. simpl. split_and!; try done.
      intros [?|[?|?]]; done. }
  set (cfg := sharepoint_config sp_link autosync (build_manifest files)).
  destruct (rebuild_then_write name text cfg (add_trace dls (add_trace reads w)))
    as [(e & evs & -> & _ & _)|(qa & vs & st & Hb & Hs & ->)].
  { eexists. split; [reflexivity|]. simpl. split_and!; try done.
    intros [?|[?|?]]; done. }
  simpl in Hs.
  destruct (fs_fault E name cfg) as [fault|] eqn:Hfault.
  - eexists. split; [reflexivity|]. simpl. split_and!; try done.
    + intros _. exists text, qa, vs. done.
    + intros other Hother. destruct fault; simpl; [done|]. by rewrite lookup_insert_ne.
  - eexists. split; [reflexivity|]. simpl. split_and!; try done.
    + intros _. exists text, qa, vs. done.
    + intros other Hother. by rewrite lookup_insert_ne.
Qed.

Lemma autosync_disabled_file_config filename :
  autosync_enabled (file_config filename) = false.
Proof. reflexivity. Qed.

(** An upload whose extracted text is blank saves nothing.  An upload that
    goes through all its steps becomes the active cache, with a
    configuration of type [file]; the sync check never does anything for
    it. *)
Theorem upload_handler raw_bytes filename name (w : world) :
  name ≠ EmptyString →
  (∀ text,
     get_raw_text E raw_bytes (VStr filename) = Ok text →
     text_is_blank U text = true →
     process_upload E U (Some (raw_bytes, filename)) name w
       = (Ok tt, add_trace [EvExtract (VStr filename)] w)) ∧
  (∀ text qa vs store',
     get_raw_text E raw_bytes (VStr filename) = Ok text →
     text_is_blank U text = false →
     build_qa_engine E text name = Ok (qa, vs) →
     save_vectorstore E vs name (index_store w) = (Ok tt, store') →
     fs_fault E name (file_config filename) = None →
     ∃ w',
       process_upload E U (Some (raw_bytes, filename)) name w = (Ok tt, w') ∧
       session_qa w' = Some qa ∧ session_cache w' = Some name ∧
       index_store w' = store' ∧
       load_config (config_files w') name = file_config filename ∧
       maybe_autosync_current_cache E w' = (Ok tt, w')).
Proof.
  intros Hn%String.eqb_neq. unfold process_upload. rewrite Hn. split.
  - intros text Hraw Hblank.
    unfold try_except, bind at 1, emit. cbn [fst snd]. unfold bind at 1, lift.
    by rewrite Hraw, Hblank.
  - intros text qa vs store' Hraw Hblank Hbuild Hsave Hfault.
    unfold try_except, bind at 1, emit. cbn [fst snd]. unfold bind at 1, lift.
    rewrite Hraw, Hblank.
    destruct (rebuild_then_write name text (file_config filename)
                (add_trace [EvExtract (VStr filename)] w))
      as [(e & evs & _ & _ & Hno)|(qa' & vs' & st & Hb & Hs & Hrun)].
    { exfalso. apply (Hno qa vs Hbuild). simpl. by rewrite Hsave. }
    simpl in Hs. rewrite Hbuild in Hb. injection Hb as <- <-.
    rewrite Hsave in Hs. injection Hs as <-.
    unfold add_trace in Hrun at 1. simpl in Hrun. rewrite Hrun, Hfault.
    eexists. split; [reflexivity|]. simpl.
    assert (Hload : load_config (<[name:=Valid (file_config filename)]> (config_files w))
                      name = file_config filename).
    { unfold load_config. by rewrite lookup_insert_eq. }
    split_and!; try done.
    apply (maybe_autosync_disabled E) with (cache := name); [done|].
    simpl. by rewrite Hload.
Qed.

Lemma autosync_enabled_set_autosync_off cfg :
  autosync_enabled (set_autosync false cfg) = false.
Proof. unfold autosync_enabled. simpl. by rewrite andb_false_r. Qed.

(** Saving the autosync setting of a SharePoint cache rewrites its
    configuration with the new flag and nothing else changed: type, link
    and manifest are kept.  Once it is saved as off, the sync check does
    nothing for that cache. *)
Theorem autosync_setting_saved name new_val (w : world) :
  name ≠ EmptyString → name ≠ placeholder →
  default VNone (c_type (load_config (config_files w) name)) = VStr "sharepoint" →
  fs_fault E name (set_autosync new_val (load_config (config_files w) name)) = None →
  ∃ w',
    save_autosync_setting E name new_val true w = (Ok tt, w') ∧
    load_config (config_files w') name
      = set_autosync new_val (load_config (config_files w) name) ∧
    c_manifest (load_config (config_files w') name)
      = c_manifest (load_config (config_files w) name) ∧
    share_link_of (load_config (config_files w') name)
      = share_link_of (load_config (config_files w) name) ∧
    session_qa w' = session_qa w ∧ session_cache w' = session_cache w ∧
    index_store w' = index_store w ∧
    (new_val = false → session_cache w = Some name →
     maybe_autosync_current_cache E w' = (Ok tt, w')).
Proof.
  intros Hn%String.eqb_neq Hp%String.eqb_neq Htype Hfault.
  unfold save_autosync_setting. rewrite Hn, Hp. simpl.
  unfold bind at 1, read_cache_config. rewrite Htype.
  rewrite bool_decide_eq_true_2 by done.
  unfold write_cache_config, bind, emit, store_config. rewrite Hfault.
  eexists. split; [reflexivity|]. simpl.
  assert (Hload : load_config
                    (<[name:=Valid (set_autosync new_val (load_config (config_files w) name))]>
                       (config_files w)) name
                  = set_autosync new_val (load_config (config_files w) name)).
  { unfold load_config at 1. by rewrite lookup_insert_eq. }
  rewrite Hload. split_and!; try done.
  intros -> Hc. apply (maybe_autosync_disabled E) with (cache := name); [done|].
  simpl. by rewrite Hload, autosync_enabled_set_autosync_off.
Qed.

(** The autosync block writes only for a SharePoint cache and only when the
    save button is pressed; its write is not in a [try], so a fault of the
    file system is raised to the script. *)
Theorem autosync_setting_not_saved name new_val save_clicked (w : world) :
  (save_clicked = false ∨
   default VNone (c_type (load_config (config_files w) name)) ≠ VStr "sharepoint" →
   save_autosync_setting E name new_val save_clicked w = (Ok tt, w)) ∧
  (∀ fault,
     name ≠ EmptyString → name ≠ placeholder → save_clicked = true →
     default VNone (c_type (load_config (config_files w) name)) = VStr "sharepoint" →
     fs_fault E name (set_autosync new_val (load_config (config_files w) name))
       = Some fault →
     (save_autosync_setting E name new_val save_clicked w).1 = Raise (fault_exn fault)).
Proof.
  split.
  - intros Hno. unfold save_autosync_setting.
    destruct (_ || _); [done|]. unfold bind, read_cache_config.
    destruct Hno as [->|Htype].
    + by destruct (bool_decide _).
    + by rewrite bool_decide_eq_false_2.
  - intros fault Hn%String.eqb_neq Hp%String.eqb_neq -> Htype Hfault.
    unfold save_autosync_setting. rewrite Hn, Hp. simpl.
    unfold bind at 1, read_cache_config. rewrite Htype.
    rewrite bool_decide_eq_true_2 by done.
    unfold write_cache_config, bind, emit, store_config, raise. rewrite Hfault.
    by destruct fault.
Qed.

Lemma save_autosync_setting_unpressed name new_val (w : world) :
  save_autosync_setting E name new_val false w = (Ok tt, w).
Proof.
  unfold save_autosync_setting.
  destruct (_ || _); [done|]. unfold bind, read_cache_config.
  by destruct (bool_decide _).
Qed.

(** ** The settings page *)

(** Without authorization the settings page runs none of its handlers: the
    config files, the stored indexes and the trace are as before, and the
    script stops before the tabs.  The page becomes authorized only when
    "Unlock" is pressed with the admin password, and the script is then
    rerun. *)
Theorem settings_need_authorization (i : settings_inputs) (s : page_state) :
  ps_authorized_settings s = false →
  ∃ f s',
    page_settings E U i s = (f, s') ∧
    config_files (ps_world s') = config_files (ps_world s) ∧
    index_store (ps_world s') = index_store (ps_world s) ∧
    trace (ps_world s') = trace (ps_world s) ∧
    (∀ e, f ≠ Stop (Crashed e)) ∧ f ≠ Go tt ∧
    (ps_authorized_settings s' = true →
     in_unlock i = true ∧ in_pwd i = admin_password U ∧ f = Stop Rerun).
Proof.
  intros Hauth. unfold page_settings, bindP at 1.
  destruct (render_header_cases (in_selected i) (in_settings_clicked i) s)
    as [->|(vs & qa & _ & _ & _ & _ & _ & ->)].
  2:{ eexists _, _. split; [reflexivity|]. simpl. rewrite Hauth. split_and!; done. }
  destruct (in_settings_clicked i).
  { eexists _, _. split; [reflexivity|]. simpl. rewrite Hauth. split_and!; done. }
  unfold bindP at 1, get_state. cbn [ps_authorized_settings]. rewrite Hauth. simpl.
  destruct (in_unlock i); simpl.
  - destruct (String.eqb_spec (in_pwd i) (admin_password U)) as [Hpwd|Hpwd]; simpl.
    + eexists _, _. split; [reflexivity|]. simpl. split_and!; done.
    + eexists _, _. split; [reflexivity|]. simpl. split_and!; done.
  - eexists _, _. split; [reflexivity|]. simpl. split_and!; done.
Qed.

Lemma keeps_history_ret {A} (a : A) : keeps_history (QA:=QA) (Store:=Store) (retP a).
Proof. by intros s. Qed.

Lemma keeps_history_stop {A} why :
  keeps_history (QA:=QA) (Store:=Store) (stopP (A:=A) why).
Proof. by intros s. Qed.

Lemma keeps_history_in_world {A} (m : M A) : keeps_history (in_world m).
Proof. intros s. unfold in_world. by destruct (m (ps_world s)) as [[a|e] w']. Qed.

Lemma keeps_history_set_page page : keeps_history (QA:=QA) (Store:=Store) (set_page page).
Proof. by intros s. Qed.

Lemma keeps_history_get_state : keeps_history (QA:=QA) (Store:=Store) get_state.
Proof. by intros s. Qed.

Lemma keeps_history_bind {A B} (m : P A) (k : A → P B) :
  keeps_history m → (∀ a, keeps_history (k a)) → keeps_history (bindP m k).
Proof.
  intros Hm Hk s. unfold bindP. specialize (Hm s).
  destruct (m s) as [[a|why] s1]; simpl in *; [|done].
  by rewrite Hk.
Qed.

Lemma keeps_history_when b (m : P unit) : keeps_history m → keeps_history (when b m).
Proof. intros Hm. destruct b; [done|]. apply keeps_history_ret. Qed.

Create HintDb history.

#[local] Hint Resolve keeps_history_ret keeps_history_stop keeps_history_in_world
  keeps_history_set_page keeps_history_get_state keeps_history_bind
  keeps_history_when : history.

(** On the settings page only "Clear in-memory selection" and a cache
    switch in the header touch the chat history: loading another cache
    with "Load selected cache into memory" makes it the active cache and
    keeps the history of the previous one, as do the other handlers. *)
Theorem settings_keep_chat_history (i : settings_inputs) (s : page_state) :
  in_selected i = placeholder → in_clear i = false →
  ps_chat_history (page_settings E U i s).2 = ps_chat_history s ∧
  (ps_authorized_settings s = true →
   in_settings_clicked i = false → in_process i = false → in_load_sp i = false →
   in_load_selected i = true →
   in_selected_cache i ≠ EmptyString → in_selected_cache i ≠ placeholder →
   ∀ vs qa,
     load_vectorstore U (in_selected_cache i) (index_store (ps_world s)) = Ok (Some vs) →
     build_qa_engine_from U vs = Ok qa →
     in_save_autosync i = false →
     session_cache (ps_world (page_settings E U i s).2) = Some (in_selected_cache i) ∧
     session_qa (ps_world (page_settings E U i s).2) = Some qa).
Proof.
  intros Hsel Hclear. split.
  - revert s. change (keeps_history (page_settings E U i)).
    unfold page_settings. rewrite Hsel, Hclear.
    apply keeps_history_bind.
    { unfold render_header. simpl. auto 10 with history. }
    intros _. apply keeps_history_bind; [auto with history|]. intros s1.
    destruct (negb (ps_authorized_settings s1)); auto 20 with history.
  - intros Hauth Hset Hproc Hsp Hload Hne Hnp vs qa Hvs Hqa Hsave.
    apply String.eqb_neq in Hne, Hnp.
    remember (page_settings E U i s) as out eqn:Hout.
    unfold page_settings in Hout.
    rewrite Hsel, Hclear, Hset, Hproc, Hsp, Hload, Hsave, Hne, Hnp in Hout.
    unfold render_header, bindP at 1, get_state in Hout. simpl in Hout.
    unfold bindP at 1 in Hout. simpl in Hout. rewrite Hauth in Hout. simpl in Hout.
    unfold bindP at 1 in Hout. simpl in Hout. unfold bindP at 1 in Hout. simpl in Hout.
    unfold bindP at 1 2, in_world at 1 in Hout. simpl in Hout.
    destruct (load_cache_cases (in_selected_cache i) (ps_world s))
      as [Hfail|(vs' & qa' & Hl & Hb & Hrun)].
    + exfalso. revert Hfail.
      unfold load_cache_into_memory, try_except, bind, read_index_store, lift,
        set_session, ret. by rewrite Hvs, Hqa.
    + rewrite Hvs in Hl. injection Hl as <-. rewrite Hqa in Hb. injection Hb as <-.
      rewrite Hrun in Hout. simpl in Hout.
      unfold bindP at 1 in Hout. simpl in Hout.
      unfold bindP at 1, when at 1, in_world in Hout.
      destruct (negb (bool_decide (in_caches i = []))); simpl in Hout;
        rewrite ?save_autosync_setting_unpressed in Hout; simpl in Hout;
        subst out; by destruct (in_back i).
Qed.

End PagesMore.

(** ** Session defaults *)

Section SessionDefaults.

Context {V : Type}.
Implicit Types (defaults : list (string * V)) (state : gmap string V).

Lemma init_session_state_union defaults state :
  init_session_state defaults state = state ∪ list_to_map defaults.
Proof.
  unfold init_session_state. revert state.
  induction defaults as [|[k v] defaults IH]; intros state; simpl.
  - by rewrite (right_id_L ∅ (∪)).
  - rewrite IH. destruct (decide (is_Some (state !! k))) as [[x Hx]|Hnone].
    + apply map_eq. intros j. rewrite !lookup_union.
      destruct (decide (j = k)) as [->|Hjk].
      * rewrite Hx, lookup_insert_eq. by destruct (list_to_map defaults !! k).
      * by rewrite lookup_insert_ne.
    + apply eq_None_not_Some in Hnone.
      by rewrite <- insert_union_l, insert_union_r.
Qed.

(** The defaults loop keeps every value that is already in the session
    state, gives a missing key its default and no key that is neither in the
    state nor among the defaults; run again, as on every rerun of the script,
    it changes nothing. *)
Theorem session_defaults_keep_state defaults state :
  (∀ k v, state !! k = Some v → init_session_state defaults state !! k = Some v) ∧
  (∀ k, state !! k = None →
        init_session_state defaults state !! k
          = (list_to_map defaults : gmap string V) !! k) ∧
  init_session_state defaults (init_session_state defaults state)
    = init_session_state defaults state.
Proof.
  rewrite !init_session_state_union. split_and!.
  - intros k v Hk. by rewrite lookup_union, Hk, union_Some_l.
  - intros k Hk. by rewrite lookup_union, Hk, (left_id_L None union).
  - by rewrite <- (assoc_L (∪)), (idemp_L (∪)).
Qed.

End SessionDefaults.

(** * The further properties on the caches *)

(** A new etag of [A] is detected; it is not when [A] is listed again
    further on. *)
Lemma changed_etag_detected :
  manifests_equal (build_manifest ([] ++ listed_file "A" "v1" :: [listed_file "B" "v1"]))
                  (build_manifest ([] ++ listed_file "A" "v2" :: [listed_file "B" "v1"]))
    = false ∧
  manifests_equal (build_manifest ([] ++ listed_file "A" "v1" :: [listed_file "A" "v3"]))
                  (build_manifest ([] ++ listed_file "A" "v2" :: [listed_file "A" "v3"]))
    = true.
Proof.
  split.
  - apply (etag_change_detection [] (listed_file "A" "v1") (listed_file "A" "v2")
             [listed_file "B" "v1"]).
    + reflexivity.
    + constructor; [vm_compute; discriminate|constructor].
    + vm_compute. discriminate.
  - apply (etag_change_detection [] (listed_file "A" "v1") (listed_file "A" "v2")
             [listed_file "A" "v3"]).
    + reflexivity.
    + apply Exists_cons_hd. reflexivity.
Defined.

(** The nested folder lists [A] and [C], in this order. *)
Lemma nested_folder_listing :
  Forall2 leaf_descriptor (leaf_items folder_nested)
    [listed_file "A" "v2"; listed_file "C" "v1"] ∧
  length [listed_file "A" "v2"; listed_file "C" "v1"] = length (leaf_items folder_nested).
Proof.
  destruct (traversal_lists_leaves folder_nested "token" policies_world
              (collect_files_recursively_from_item folder_nested "token" policies_world).2
              [listed_file "A" "v2"; listed_file "C" "v1"]) as (Hleaves & Hlen & _).
  - vm_compute. reflexivity.
  - split; [exact Hleaves|exact Hlen].
Defined.

(** Listing the nested folder takes two children requests and one drive
    lookup. *)
Lemma nested_folder_requests :
  ∃ evs,
    (collect_files_recursively_from_item folder_nested "token" policies_world).2
      = add_trace evs policies_world ∧
    length (List.filter is_children_request evs) = 2 ∧
    length (List.filter is_drive_lookup evs) = 1.
Proof.
  destruct (traversal_requests folder_nested "token" policies_world
              (collect_files_recursively_from_item folder_nested "token" policies_world).2
              [listed_file "A" "v2"; listed_file "C" "v1"]) as (evs & Hw & Hc & Hd & _).
  - vm_compute. reflexivity.
  - exists evs. split; [exact Hw|]. split; [exact Hc|exact Hd].
Defined.

(** A lookup that finds no drive id answers the empty string, and the
    children of the folder are then requested from the drive [""]. *)
Lemma lookup_without_drive :
  ∃ d, drive_id_from_item (VStr "sub") (Ok None) policies_world
         = (Ok d, add_trace [EvDriveLookup (VStr "sub")] policies_world) ∧
       d = VStr EmptyString ∧
       ∃ evs,
         (walk (Item (list_to_map [("id", VStr "sub")]) false true VNone (Ok None) (Ok []))
               [] policies_world).2
           = add_trace (EvDriveLookup (VStr "sub") :: EvChildren d (VStr "sub") :: evs)
               policies_world.
Proof.
  destruct (drive_id_fallback_never_helps (QA:=string) (Store:=gmap string string)
              (VStr "sub") None policies_world) as (d & Hrun & _ & Hnone & _ & Hwalk).
  exists d. split; [exact Hrun|]. split; [exact (Hnone eq_refl)|].
  apply (Hwalk (list_to_map [("id", VStr "sub")]) VNone (Ok []) []).
  - vm_compute. reflexivity.
  - reflexivity.
Defined.


(** The disk fills up during the dump: "policies" then reads as the empty
    configuration and is no longer synchronised. *)
Lemma policies_config_truncated :
  ∃ w', write_cache_config env_dump_fails "policies" upload_config policies_world
          = (Raise (OSError "No space left on device"), w') ∧
        load_config (config_files w') "policies" = empty_config ∧
        maybe_autosync_current_cache env_dump_fails w' = (Ok tt, w').
Proof.
  destruct (failed_config_write env_dump_fails "policies" upload_config
              (FailDuringDump (OSError "No space left on device")) policies_world)
    as (w' & Hwrite & _ & Hempty & Hsync).
  - reflexivity.
  - exists w'. split; [exact Hwrite|]. split; [exact Hempty|].
    apply Hsync. revert Hwrite. vm_compute. intros Hwrite. injection Hwrite as <-. reflexivity.
Defined.

(** Without credentials the sync of "policies" ends in a warning. *)
Lemma policies_without_credentials :
  maybe_autosync_current_cache env_no_credentials policies_world
    = (Ok tt,
       add_trace [EvWarning (RuntimeError "SharePoint credentials not set in .env.")]
         policies_world).
Proof.
  apply (sync_without_credentials env_no_credentials policies_world "policies").
  - reflexivity.
  - discriminate.
  - vm_compute. reflexivity.
  - reflexivity.
Defined.

(** The sync of "policies" leaves the config file of "handbook" alone. *)
Lemma handbook_config_untouched :
  session_cache (maybe_autosync_current_cache env_changed two_caches_world).2
    = Some "policies" ∧
  config_files (maybe_autosync_current_cache env_changed two_caches_world).2 !! "handbook"
    = config_files two_caches_world !! "handbook".
Proof.
  destruct (autosync_stays_on_active_cache env_changed two_caches_world) as [Hc Hf].
  split; [exact Hc|]. apply Hf. vm_compute. discriminate.
Defined.

(** The engine that replaces "old text" was built from the new text and its
    index saved. *)
Lemma policies_engine_saved :
  ∃ text qa vs,
    build_qa_engine env_changed text "policies" = Ok (qa, vs) ∧
    save_vectorstore env_changed vs "policies" (index_store policies_world)
      = (Ok tt, index_store (maybe_autosync_current_cache env_changed policies_world).2) ∧
    session_qa (maybe_autosync_current_cache env_changed policies_world).2 = Some qa.
Proof.
  destruct (engine_replaced_after_index_saved env_changed policies_world)
    as (cache & text & qa & vs & Hc & Hb & Hs & Hqa).
  - vm_compute. discriminate.
  - injection Hc as <-. exists text, qa, vs. split; [exact Hb|]. split; [exact Hs|exact Hqa].
Defined.

(** The config the sync writes for "policies" differs from the old one in
    its manifest only. *)
Lemma policies_config_after_sync :
  c_autosync (set_manifest (build_manifest listing_v2) policies_config)
    = c_autosync (load_config (config_files policies_world) "policies") ∧
  c_sharepoint (set_manifest (build_manifest listing_v2) policies_config)
    = c_sharepoint (load_config (config_files policies_world) "policies").
Proof.
  destruct (synced_config_differs_in_manifest env_changed policies_world "policies"
              (set_manifest (build_manifest listing_v2) policies_config))
    as (_ & _ & Hsp & Hauto & _).
  - reflexivity.
  - vm_compute. reflexivity.
  - vm_compute. discriminate.
  - split; [exact Hauto|exact Hsp].
Defined.



(** Selecting "handbook" in the header while "policies" is active loads it,
    empties the chat history and reruns the script. *)
Lemma header_switch_to_handbook :
  ∃ f s',
    render_header demo_page_env "handbook" false chat_state = (f, s') ∧
    session_cache (ps_world s') = Some "handbook" ∧
    ps_chat_history s' = [] ∧ f = Stop Rerun.
Proof.
  destruct (header_cache_switch demo_page_env "handbook" false chat_state)
    as (f & s' & Hrun & _ & _ & _ & _ & _ & Hswitch & _).
  exists f, s'. split; [exact Hrun|].
  destruct Hswitch as (_ & _ & Hc & Hh & Hf & _).
  - revert Hrun. vm_compute. intros Hrun. injection Hrun as <- <-. discriminate.
  - split; [exact Hc|]. split; [exact Hh|exact Hf].
Defined.

(** A question on the chat page of the unchanged "policies" cache adds one
    entry to the history. *)
Lemma question_appended :
  ∃ f s',
    page_chat env_unchanged demo_page_env placeholder false (Some "What is new?") chat_state
      = (f, s') ∧
    (ps_chat_history s' = ps_chat_history chat_state ∨
     ∃ q qa ans,
       session_qa (ps_world s') = Some qa ∧
       run_qa demo_page_env qa q = Ok ans ∧
       ps_chat_history s' = ps_chat_history chat_state ++ [entry_of q ans]).
Proof.
  destruct (chat_page_history env_unchanged demo_page_env placeholder false
              (Some "What is new?") chat_state) as (f & s' & Hrun & _ & _ & Happend).
  exists f, s'. split; [exact Hrun|].
  destruct Happend as [Hsame|(q & qa & ans & _ & _ & Hqa & Hans & Hh)].
  - revert Hrun. vm_compute. intros Hrun. injection Hrun as <- _. discriminate.
  - left. exact Hsame.
  - right. exists q, qa, ans. split; [exact Hqa|]. split; [exact Hans|exact Hh].
Defined.


(** Without a cache name "Load and Save (SharePoint)" does nothing. *)
Lemma sharepoint_needs_a_name :
  ∃ w',
    load_sharepoint env_changed "https://contoso.sharepoint.com/:f:/s/policies"
      "" true upload_world = (Ok tt, w') ∧
    w' = upload_world.
Proof.
  destruct (sharepoint_creation_is_guarded env_changed
              "https://contoso.sharepoint.com/:f:/s/policies" "" true upload_world)
    as (w' & Hrun & Hguard & _).
  exists w'. split; [exact Hrun|]. apply Hguard. right. left. reflexivity.
Defined.

(** Uploading the handbook while "policies" is active: the new cache is
    active, has a file configuration and is not synchronised. *)
Lemma handbook_uploaded :
  ∃ w',
    process_upload env_changed demo_page_env (Some ("handbook text", "handbook.pdf"))
      "handbook" policies_world = (Ok tt, w') ∧
    session_cache w' = Some "handbook" ∧
    load_config (config_files w') "handbook" = file_config "handbook.pdf" ∧
    maybe_autosync_current_cache env_changed w' = (Ok tt, w').
Proof.
  destruct (upload_handler env_changed demo_page_env "handbook text" "handbook.pdf"
              "handbook" policies_world) as [_ Hbuilt].
  - discriminate.
  - destruct (Hbuilt "handbook text" "handbook text" "handbook text"
                (<["handbook" := "handbook text"]> (index_store policies_world)))
      as (w' & Hrun & _ & Hc & _ & Hcfg & Hsync).
    + reflexivity.
    + reflexivity.
    + reflexivity.
    + reflexivity.
    + reflexivity.
    + exists w'. split; [exact Hrun|]. split; [exact Hc|]. split; [exact Hcfg|exact Hsync].
Defined.

(** Switching auto-sync off for "policies" keeps its manifest and stops
    its synchronisation. *)
Lemma policies_autosync_off :
  ∃ w',
    save_autosync_setting env_changed "policies" false true policies_world = (Ok tt, w') ∧
    c_manifest (load_config (config_files w') "policies")
      = c_manifest (load_config (config_files policies_world) "policies") ∧
    maybe_autosync_current_cache env_changed w' = (Ok tt, w').
Proof.
  destruct (autosync_setting_saved env_changed "policies" false policies_world)
    as (w' & Hrun & _ & Hm & _ & _ & _ & _ & Hsync).
  - discriminate.
  - discriminate.
  - vm_compute. reflexivity.
  - reflexivity.
  - exists w'. split; [exact Hrun|]. split; [exact Hm|].
    apply Hsync; reflexivity.
Defined.

(** The setting of a file cache is never written; a refused write of the
    setting of "policies" is not caught. *)
Lemma autosync_setting_edge_cases :
  save_autosync_setting env_changed "handbook" true true upload_world = (Ok tt, upload_world) ∧
  (save_autosync_setting env_write_refused "policies" false true policies_world).1
    = Raise (OSError "Permission denied").
Proof.
  split.
  - apply (proj1 (autosync_setting_not_saved env_changed "handbook" true true upload_world)).
    right. vm_compute. discriminate.
  - apply (proj2 (autosync_setting_not_saved env_write_refused "policies" false true
                    policies_world) (FailBeforeOpen (OSError "Permission denied"))).
    + discriminate.
    + discriminate.
    + reflexivity.
    + vm_compute. reflexivity.
    + reflexivity.
Defined.

(** With a wrong password no button of the settings page does anything. *)
Lemma intruder_locked_out :
  ∃ f s',
    page_settings env_changed demo_page_env intruder_inputs chat_state = (f, s') ∧
    config_files (ps_world s') = config_files (ps_world chat_state) ∧
    index_store (ps_world s') = index_store (ps_world chat_state) ∧
    trace (ps_world s') = trace (ps_world chat_state) ∧
    f ≠ Go tt.
Proof.
  destruct (settings_need_authorization env_changed demo_page_env intruder_inputs chat_state)
    as (f & s' & Hrun & Hcfg & Hidx & Htr & _ & Hstop & _).
  - reflexivity.
  - exists f, s'. split; [exact Hrun|]. split; [exact Hcfg|]. split; [exact Hidx|].
    split; [exact Htr|exact Hstop].
Defined.

(** Loading "handbook" from the settings page makes it the active cache and
    keeps the chat history of "policies". *)
Lemma handbook_loaded_history_kept :
  ps_chat_history (page_settings env_changed demo_page_env load_handbook_inputs
                     settings_state).2 = [asked] ∧
  session_cache (ps_world (page_settings env_changed demo_page_env load_handbook_inputs
                             settings_state).2) = Some "handbook".
Proof.
  destruct (settings_keep_chat_history env_changed demo_page_env load_handbook_inputs
              settings_state) as [Hh Hload].
  - reflexivity.
  - reflexivity.
  - split; [exact Hh|].
    apply (Hload eq_refl eq_refl eq_refl eq_refl eq_refl) with (vs := "handbook text")
                                                                (qa := "handbook text").
    + discriminate.
    + discriminate.
    + vm_compute. reflexivity.
    + reflexivity.
    + reflexivity.
Defined.

(** A rerun on the settings page stays there, and a missing engine is
    initialised to [None]. *)
Lemma settings_page_survives_rerun :
  init_session_state page_defaults {[ "page" := VStr "settings" ]} !! "page"
    = Some (VStr "settings") ∧
  init_session_state page_defaults {[ "page" := VStr "settings" ]} !! "qa" = Some VNone.
Proof.
  destruct (session_defaults_keep_state page_defaults {[ "page" := VStr "settings" ]})
    as (Hkeep & Hnew & _).
  split.
  - apply Hkeep. reflexivity.
  - rewrite Hnew; reflexivity.
Defined.
